(** * ngonx: load balancer and API gateway

    A shallow embedding of the request paths of [cmd/cli/lb.go] (the
    load balancer set up by [StartLB]) and of the gateway handlers
    ([ProxyGateway], [checkJWTSecretKeyFromRequest],
    [checkAPIKEYSecretKeyFromRequest], [modifyResponse],
    [extractIpAddr]).

    Go strings are byte strings: [string].  Go's [int] is [Z] with the
    64-bit wrap-around written out.  A map is a [gmap]; a slice is a
    [list].  Pointers to objects the program mutates after construction
    (the gateway's reverse proxies) are indices into a heap. *)

From Stdlib Require Import ZArith Ascii String List Lia Bool.
From stdpp Require Import base strings list gmap.

Local Open Scope Z_scope.

(** ** Package [strings] of the Go library, on byte strings *)

Module strings.

(** [strings.HasPrefix(s, prefix)]. *)
Fixpoint HasPrefix (s prefix : string) {struct prefix} : bool :=
  match prefix with
  | EmptyString => true
  | String p prefix' =>
      match s with
      | EmptyString => false
      | String c s' => if Ascii.eqb c p then HasPrefix s' prefix' else false
      end
  end.

(** [strings.Contains(s, substr)]: [substr] starts at some position. *)
Fixpoint Contains (s substr : string) : bool :=
  HasPrefix s substr ||
  match s with
  | EmptyString => false
  | String _ s' => Contains s' substr
  end.

(** [strings.HasSuffix(s, suffix)] *)
Definition HasSuffix (s suffix : string) : bool :=
  HasPrefix (String.rev s) (String.rev suffix).

(** The scan behind [strings.Split] for a non-empty [sep]: the field
    being read and the fields after it.  The separator is matched
    leftmost first; [skip] counts the bytes of a matched separator that
    are still to be passed over, so matches never overlap. *)
Fixpoint Split_from (sep : string) (skip : nat) (s : string) : string * list string :=
  match s with
  | EmptyString => (EmptyString, [])
  | String c s' =>
      match skip with
      | S k => Split_from sep k s'
      | O =>
          if HasPrefix s sep
          then (EmptyString,
                let '(f, fs) := Split_from sep (pred (String.length sep)) s' in f :: fs)
          else let '(f, fs) := Split_from sep O s' in (String c f, fs)
      end
  end.

(** [strings.Split(s, sep)].  With an empty [sep] Go cuts after every
    UTF-8 sequence; on bytes that is one field per byte. *)
Definition Split (s sep : string) : list string :=
  match sep with
  | EmptyString => (fun c => String c EmptyString) <$> list_ascii_of_string s
  | _ => let '(f, fs) := Split_from sep O s in f :: fs
  end.

(** The scan behind [strings.Replace] for a non-empty [old]: [budget]
    is the number of replacements still allowed ([None]: no limit). *)
Fixpoint Replace_from (old new : string) (budget : option nat) (skip : nat)
    (s : string) : string :=
  match s with
  | EmptyString => EmptyString
  | String c s' =>
      match skip with
      | S k => Replace_from old new budget k s'
      | O =>
          if HasPrefix s old
          then match budget with
               | Some O => String c (Replace_from old new budget O s')
               | Some (S b) =>
                   new +:+ Replace_from old new (Some b) (pred (String.length old)) s'
               | None =>
                   new +:+ Replace_from old new None (pred (String.length old)) s'
               end
          else String c (Replace_from old new budget O s')
      end
  end.

(** [strings.Replace(s, old, new, n)] for a non-empty [old]; [n < 0]
    replaces every occurrence. *)
Definition Replace (s old new : string) (n : Z) : string :=
  if n =? 0 then s
  else Replace_from old new (if n <? 0 then None else Some (Z.to_nat n)) O s.

(** The part of [s] before the first occurrence of [sep], all of [s]
    when [sep] does not occur: what [s[:strings.Index(s, sep)]] is. *)
Fixpoint before_first (sep s : string) : string :=
  match s with
  | EmptyString => EmptyString
  | String c s' => if HasPrefix s sep then EmptyString else String c (before_first sep s')
  end.

(** *** Facts about the scans *)

Lemma HasPrefix_app (p r : string) : HasPrefix (p +:+ r) p = true.
Proof.
  induction p as [|c p IH]; simpl; [reflexivity|].
  rewrite Ascii.eqb_refl. exact IH.
Qed.

Lemma HasPrefix_inv (s p : string) :
  HasPrefix s p = true -> exists r, s = p +:+ r.
Proof.
  revert s. induction p as [|c p IH]; intros s H; simpl in *.
  - exists s. reflexivity.
  - destruct s as [|d s]; [discriminate|].
    destruct (Ascii.eqb d c) eqn:E; [|discriminate].
    apply Ascii.eqb_eq in E. subst d.
    destruct (IH _ H) as [r ->]. exists r. reflexivity.
Qed.

Lemma Contains_nil_r (s : string) : Contains s EmptyString = true.
Proof. destruct s; reflexivity. Qed.

Lemma Contains_false_HasPrefix (s sub : string) :
  Contains s sub = false -> HasPrefix s sub = false.
Proof.
  destruct s; simpl; intros H; apply orb_false_iff in H; tauto.
Qed.

Lemma Contains_app (a sub b : string) : Contains (a +:+ sub +:+ b) sub = true.
Proof.
  induction a as [|c a IH]; simpl.
  - destruct sub as [|d sub]; [destruct b; reflexivity|].
    simpl. rewrite Ascii.eqb_refl, HasPrefix_app. reflexivity.
  - rewrite IH. apply orb_true_r.
Qed.

(** The first field [Split_from] reads is the text before the first
    separator. *)
Lemma Split_from_fst (sep s : string) :
  fst (Split_from sep O s) = before_first sep s.
Proof.
  induction s as [|c s IH]; [reflexivity|].
  cbn [Split_from before_first].
  destruct (HasPrefix (String c s) sep); [reflexivity|].
  destruct (Split_from sep O s) as [f fs]. simpl in *. now rewrite IH.
Qed.

(** With no separator in [s] there is one field. *)
Lemma Split_from_snd_nil (sep s : string) :
  Contains s sep = false -> snd (Split_from sep O s) = [].
Proof.
  induction s as [|c s IH]; [reflexivity|].
  intros H. cbn [Split_from].
  rewrite (Contains_false_HasPrefix _ _ H).
  simpl in H. apply orb_false_iff in H. destruct H as [_ H].
  specialize (IH H). destruct (Split_from sep O s) as [f fs]. exact IH.
Qed.

(** With a separator in [s] there are at least two. *)
Lemma Split_from_snd_cons (sep s : string) :
  Contains s sep = true -> s <> EmptyString -> snd (Split_from sep O s) <> [].
Proof.
  induction s as [|c s IH]; [congruence|].
  intros H _. cbn [Split_from].
  destruct (HasPrefix (String c s) sep) eqn:E.
  - simpl. destruct (Split_from sep (pred (String.length sep)) s). discriminate.
  - simpl in H. cbn [HasPrefix] in E. rewrite E in H. simpl in H.
    destruct s as [|d s].
    + simpl in H. destruct sep; simpl in *; discriminate.
    + assert (IH' := IH H ltac:(discriminate)).
      destruct (Split_from sep O (String d s)) as [f fs]. exact IH'.
Qed.

Lemma before_first_no_sep (sep s : string) :
  Contains s sep = false -> before_first sep s = s.
Proof.
  induction s as [|c s IH]; [reflexivity|].
  intros H. cbn [before_first].
  rewrite (Contains_false_HasPrefix _ _ H).
  simpl in H. apply orb_false_iff in H. destruct H as [_ H].
  now rewrite IH.
Qed.

(** A separator whose first byte does not occur in [a] is first found
    right after [a]. *)
Lemma before_first_app (d : ascii) (sep' a b : string) :
  Contains a (String d EmptyString) = false ->
  before_first (String d sep') (a +:+ String d sep' +:+ b) = a.
Proof.
  induction a as [|c a IH]; intros H.
  - simpl. now rewrite Ascii.eqb_refl, HasPrefix_app.
  - simpl in H. apply orb_false_iff in H. destruct H as [Hc H].
    simpl. destruct (Ascii.eqb c d); [discriminate|].
    now rewrite IH.
Qed.

Lemma Replace_from_absent (old new : string) (budget : option nat) (s : string) :
  Contains s old = false -> Replace_from old new budget O s = s.
Proof.
  induction s as [|c s IH]; [reflexivity|].
  intros H. cbn [Replace_from].
  rewrite (Contains_false_HasPrefix _ _ H).
  simpl in H. apply orb_false_iff in H. destruct H as [_ H].
  now rewrite IH.
Qed.

(** The first field of a split is the text before the first
    separator. *)
Lemma Split_head (s sep : string) :
  sep <> EmptyString -> Split s sep !! 0%nat = Some (before_first sep s).
Proof.
  intros Hsep. unfold Split. destruct sep as [|d sep']; [congruence|].
  rewrite <- Split_from_fst.
  destruct (Split_from (String d sep') O s) as [f fs]. reflexivity.
Qed.

(** A split into a single field returns the string itself. *)
Lemma Split_single (s sep : string) :
  sep <> EmptyString -> (length (Split s sep) <= 1)%nat -> before_first sep s = s.
Proof.
  intros Hsep Hlen. destruct s as [|c s]; [reflexivity|].
  destruct (Contains (String c s) sep) eqn:E.
  - exfalso. assert (Hne := Split_from_snd_cons sep (String c s) E ltac:(discriminate)).
    unfold Split in Hlen. destruct sep as [|d sep']; [congruence|].
    destruct (Split_from (String d sep') O (String c s)) as [f [|f' fs]];
      simpl in *; [congruence | lia].
  - now apply before_first_no_sep.
Qed.

Lemma Replace_absent (s old new : string) (n : Z) :
  Contains s old = false -> Replace s old new n = s.
Proof.
  intros H. unfold Replace. destruct (n =? 0)%Z; [reflexivity|].
  now apply Replace_from_absent.
Qed.

End strings.

(** ** The Go values the handlers work on *)

(** Go's [int] on the 64-bit targets the program is built for. *)
Module int.

Definition min : Z := - 2 ^ 63.
Definition max : Z := 2 ^ 63 - 1.

Definition wrap (z : Z) : Z := (z + 2 ^ 63) mod 2 ^ 64 - 2 ^ 63.

Definition add (a b : Z) : Z := wrap (a + b).

Definition in_range (z : Z) : Prop := min <= z <= max.

Lemma wrap_in_range (z : Z) : in_range z -> wrap z = z.
Proof.
  unfold in_range, min, max, wrap. intros H.
  rewrite Z.mod_small by lia. lia.
Qed.

Lemma add_small (a b : Z) : in_range (a + b) -> add a b = a + b.
Proof. apply wrap_in_range. Qed.

End int.

(** Go's [error] values.  [None] is [nil]. *)
Module errors.

(** Modelled from the spec: package [pkg/errors] of the repository is
    not among the sources.  Its sentinels are the spec's bearer-format,
    expiration and HMAC-verification error kinds and the secret-store
    lookup error; [NewError msg] is a fresh error with that message
    (the invalid-key error is [NewError "Invalid API KEY"]).  The
    sentinels of the JWT library ([jwt_]) and errors of other origin
    ([Other], by message) are values of the same interface. *)
Inductive error : Type :=
  | ErrBearerTokenFormat
  | ErrTokenExpValidation
  | ErrTokenHMACValidation
  | ErrGetkeyView
  | NewError (msg : string)
  | jwt_ErrExpValidation
  | jwt_ErrHMACVerification
  | jwt_ErrMalformed
  | Other (msg : string).

#[export] Instance error_eq_dec : EqDecision error.
Proof. solve_decision. Defined.

(** Modelled from the spec: [errors.ErrorIs(err, target)] of the
    missing package, taken to be Go's [errors.Is] on sentinel values:
    [nil] is no target, a sentinel is itself only. *)
Definition ErrorIs (err : option error) (target : error) : bool :=
  match err with
  | None => false
  | Some e => bool_decide (e = target)
  end.

End errors.
Export errors.

(** [context.Context] as far as the program uses it: a chain of
    [WithValue] frames over the two keys of package [domain], holding
    [int]s.  [Value] finds the innermost frame of a key. *)
Module context.

(** Modelled from the spec: the keys [domain.RETRY] and
    [domain.ATTEMPTS] of package [domain], which is not among the
    sources, for the [retry] and [attempt] counters of the
    retry/attempt context. *)
Inductive Key : Type := RETRY | ATTEMPTS.

#[export] Instance Key_eq_dec : EqDecision Key.
Proof. solve_decision. Defined.

Definition Context : Type := list (Key * Z).

Definition Background : Context := [].

Definition WithValue (parent : Context) (key : Key) (val : Z) : Context :=
  (key, val) :: parent.

Fixpoint Value (ctx : Context) (key : Key) : option Z :=
  match ctx with
  | [] => None
  | (k, v) :: parent => if decide (k = key) then Some v else Value parent key
  end.

End context.

(** [net/url] and [net/http] *)
Module http.

(** A parsed [*url.URL]. *)
Record URL : Type := mkURL {
  Scheme : string;
  Host : string;
  Path : string;
  RawQuery : string;
}.

#[export] Instance URL_eq_dec : EqDecision URL.
Proof. solve_decision. Defined.

(** Bytes allowed in a header name (RFC 7230 token). *)
Definition validHeaderFieldByte (c : ascii) : bool :=
  let n := nat_of_ascii c in
  ((48 <=? n) && (n <=? 57))%nat || ((65 <=? n) && (n <=? 90))%nat ||
  ((97 <=? n) && (n <=? 122))%nat ||
  bool_decide (n ∈ [33; 35; 36; 37; 38; 39; 42; 43; 45; 46; 94; 95; 96; 124; 126]%nat).

Definition toUpper (c : ascii) : ascii :=
  let n := nat_of_ascii c in
  if ((97 <=? n) && (n <=? 122))%nat then ascii_of_nat (n - 32) else c.

Definition toLower (c : ascii) : ascii :=
  let n := nat_of_ascii c in
  if ((65 <=? n) && (n <=? 90))%nat then ascii_of_nat (n + 32) else c.

Fixpoint canonical_from (upper : bool) (s : string) : string :=
  match s with
  | EmptyString => EmptyString
  | String c s' =>
      let c' := if upper then toUpper c else toLower c in
      String c' (canonical_from (bool_decide (c' = "-"%char)) s')
  end.

(** [textproto.CanonicalMIMEHeaderKey]: a name with a byte that is not
    allowed in header names is left as it is. *)
Definition CanonicalMIMEHeaderKey (s : string) : string :=
  if forallb validHeaderFieldByte (list_ascii_of_string s)
  then canonical_from true s else s.

(** [http.Header], a [map[string][]string]. *)
Abbreviation Header := (gmap string (list string)).

(** [h.Get(key)]: the first value under the canonical form of [key],
    the empty string when there is none. *)
Definition Get (h : Header) (key : string) : string :=
  match h !! CanonicalMIMEHeaderKey key with
  | Some (v :: _) => v
  | _ => EmptyString
  end.

(** [h.Set(key, value)] *)
Definition Set_ (h : Header) (key value : string) : Header :=
  <[CanonicalMIMEHeaderKey key := [value]]> h.

(** [*http.Request], the fields the program reads. *)
Record Request : Type := mkRequest {
  Method : string;
  RequestURI : string;
  URL_ : URL;
  RemoteAddr : string;
  ReqHeader : Header;
  Ctx : context.Context;
}.

(** [r.WithContext(ctx)]: a shallow copy with the context changed. *)
Definition WithContext (r : Request) (ctx : context.Context) : Request :=
  {| Method := Method r; RequestURI := RequestURI r; URL_ := URL_ r;
     RemoteAddr := RemoteAddr r; ReqHeader := ReqHeader r; Ctx := ctx |}.

(** [*http.Response] as received from an upstream. *)
Record Response : Type := mkResponse {
  StatusCode : Z;
  RespHeader : Header;
  Body : string;
}.

Definition StatusInternalServerError : Z := 500.
Definition StatusBadGateway : Z := 502.
Definition StatusServiceUnavailable : Z := 503.
Definition StatusNotFound : Z := 404.

(** [httputil]: how the default director joins two paths. *)
Definition singleJoiningSlash (a b : string) : string :=
  match strings.HasSuffix a "/", strings.HasPrefix b "/" with
  | true, true => a +:+ String.substring 1 (String.length b - 1) b
  | false, false => a +:+ "/" +:+ b
  | _, _ => a +:+ b
  end.

(** [httputil]: the director of [NewSingleHostReverseProxy(target)].
    It points the request at the target.  The empty [User-Agent] entry
    that older versions of the library add to a request without one is
    left out: no handler reads that entry. *)
Definition rewriteRequestURL (req : Request) (target : URL) : Request :=
  let u := URL_ req in
  {| Method := Method req; RequestURI := RequestURI req;
     URL_ := {| Scheme := Scheme target; Host := Host target;
                Path := singleJoiningSlash (Path target) (Path u);
                RawQuery := if String.eqb (RawQuery target) "" || String.eqb (RawQuery u) ""
                            then RawQuery target +:+ RawQuery u
                            else RawQuery target +:+ "&" +:+ RawQuery u |};
     RemoteAddr := RemoteAddr req; ReqHeader := ReqHeader req; Ctx := Ctx req |}.

Lemma Get_Set (h : Header) (key value : string) : Get (Set_ h key value) key = value.
Proof. unfold Get, Set_. now rewrite lookup_insert_eq. Qed.

Lemma Get_Set_ne (h : Header) (key key' value : string) :
  CanonicalMIMEHeaderKey key <> CanonicalMIMEHeaderKey key' ->
  Get (Set_ h key value) key' = Get h key'.
Proof. intros Hne. unfold Get, Set_. now rewrite lookup_insert_ne. Qed.

End http.

(** The logging sink: a line is kept as its format and arguments. *)
Module logger.

Inductive Arg : Type :=
  | AStr (s : string)
  | AInt (z : Z)
  | AErr (e : error)
  | AURL (u : option http.URL).

Inductive Entry : Type :=
  | LogError (format : string) (args : list Arg)
  | LogInfo (format : string) (args : list Arg).

End logger.
Export logger.

(** ** The gateway handlers (package [proxy]) *)

Module Gateway.
Import strings http.

(** A computation that may hit a run-time panic ([None]) and otherwise
    returns the lines it logged and its value. *)
Abbreviation Logged A := (option (list Entry * A)).

Section Checks.

(** [ph.Service.GetKEY(engine, key)]: the secret store, an external
    collaborator; it returns a value and an error. *)
Variable GetKEY : string -> string -> string * option error.

(** [jwt.Verify([]byte(token), jwt.NewHS256([]byte(key)), &pl,
    jwt.ValidatePayload(&pl.Payload, jwt.ExpirationTimeValidator(now)))]
    of the JWT library, by the error it returns. *)
Variable jwt_Verify : forall (token key : string) (now : Z), option error.

(** [checkJWTSecretKeyFromRequest(req, key)], with the reading of
    [time.Now()] as [now]. *)
Definition checkJWTSecretKeyFromRequest (now : Z) (req : Request) (key : string)
    : Logged (option error) :=
  let header := Get (ReqHeader req) "Authorization" in
  if negb (HasPrefix header "Bearer ")
  then Some ([LogError "proxy: %v" [AErr ErrBearerTokenFormat]], Some ErrBearerTokenFormat)
  else
    token ← Split header " " !! 1%nat;
    let err := jwt_Verify token key now in
    if ErrorIs err jwt_ErrExpValidation
    then Some ([LogError "proxy: %v" [AErr ErrTokenExpValidation]], Some ErrTokenExpValidation)
    else if ErrorIs err jwt_ErrHMACVerification
    then Some ([LogError "proxy: %v" [AErr ErrTokenHMACValidation]], Some ErrTokenHMACValidation)
    else Some ([], None).

(** [checkAPIKEYSecretKeyFromRequest(req, ph, engine, key)] *)
Definition checkAPIKEYSecretKeyFromRequest (req : Request) (engine key : string)
    : list Entry * option error :=
  let '(apikey, err) := GetKEY engine key in
  let header := Get (ReqHeader req) "X-API-KEY" in
  let logged :=
    match err with
    | Some _ => [LogError "proxy: %v" [AErr ErrGetkeyView]]
    | None => []
    end in
  if String.eqb apikey header
  then (logged ++ [LogInfo "proxy: check secret from request OK" []], None)
  else (logged ++ [LogError "proxy: Invalid API KEY" []], Some (NewError "Invalid API KEY")).

End Checks.

(** [modifyResponse(err)]: the hook; it returns the response as it
    leaves it and the hook's error. *)
Definition modifyResponse (err : option error) : Response -> Response * option error :=
  fun resp =>
    let resp :=
      {| StatusCode := StatusCode resp;
         RespHeader := Set_ (RespHeader resp) "X-Proxy" "Ngonx";
         Body := Body resp |} in
    match err with
    | Some e => (resp, Some e)
    | None => (resp, None)
    end.

(** [extractIpAddr(req)]; [None] would be an index out of range. *)
Definition extractIpAddr (req : Request) : option string :=
  let ipAddress := RemoteAddr req in
  let fwdAddress := Get (ReqHeader req) "X-Forwarded-For" in
  ipAddress ←
    (if negb (String.eqb fwdAddress "")
     then
       let ipAddress := fwdAddress in
       let ips := Split fwdAddress ", " in
       if bool_decide (1 < length ips)%nat then ips !! 0%nat else Some ipAddress
     else Some ipAddress);
  if Contains ipAddress "[::1]"
  then
    let remoteAddrToParse := Replace ipAddress "[::1]" "localhost" (-1) in
    Split remoteAddrToParse ":" !! 0%nat
  else Split ipAddress ":" !! 0%nat.

(** *** The forwarding handles and [ProxyGateway] *)

(** Modelled from the spec: [domain.ProxyEndpoint] and its
    endpoints, whose declarations are not among the sources, with the
    fields [ProxyGateway] reads (the spec's [hostURI], [pathEndpoint],
    [pathToProxy], [pathProtected]; the security type reaches
    [ProxyGateway] as a parameter). *)
Record Endpoint : Type := mkEndpoint {
  PathEndpoint : string;
  PathToProxy : string;
  PathProtected : bool;
}.

Record ProxyEndpoint : Type := mkProxyEndpoint {
  HostURI : string;
  Endpoints : list Endpoint;
}.

(** The [Director] closures, with what they capture.
    [director_default target] is the one [NewSingleHostReverseProxy]
    builds; the other two are the function literals of [ProxyGateway]. *)
Inductive Director : Type :=
  | director_default (target : option URL)
  | director_protected (originalDirector : Director) (target : option URL)
      (securityType engine key : string)
  | director_plain (originalDirector : Director) (target : option URL).

(** The [ErrorHandler] field: [nil] (the library's default) or the
    function literal of [ProxyGateway]. *)
Inductive ErrorHandlerField : Type :=
  | ErrorHandler_nil
  | ErrorHandler_gateway.

(** [*httputil.ReverseProxy] *)
Record ReverseProxy : Type := mkReverseProxy {
  Director_ : Director;
  ModifyResponse : option (Response -> Response * option error);
  ErrorHandler : ErrorHandlerField;
}.

(** Counter increments sent to the metrics sink, by their labels. *)
Inductive Metric : Type :=
  | CountersByEndpoint_Inc (proxyPath : string) (endpointPath : URL)
      (ipAddr method : string)
  | TotalRequests_Inc (path service : string).

(** What the client is sent. *)
Inductive Written : Type :=
  | Forwarded (resp : Response)
  | Failed (status : Z) (body : option error)
  | NotFound.

(** The process state: the reverse proxies by address, the
    package-level [var proxy *httputil.ReverseProxy], the routes
    registered with [http.Handle] (pattern, handle under
    [http.StripPrefix]), and the two sinks. *)
Record State : Type := mkState {
  heap : list ReverseProxy;
  proxy : option nat;
  mux : list (string * nat);
  log : list Entry;
  metrics : list Metric;
}.

Definition init : State :=
  {| heap := []; proxy := None; mux := []; log := []; metrics := [] |}.

Definition set_heap (h : list ReverseProxy) (st : State) : State :=
  {| heap := h; proxy := proxy st; mux := mux st; log := log st; metrics := metrics st |}.

Definition add_log (l : list Entry) (st : State) : State :=
  {| heap := heap st; proxy := proxy st; mux := mux st; log := log st ++ l;
     metrics := metrics st |}.

Definition add_metrics (m : list Metric) (st : State) : State :=
  {| heap := heap st; proxy := proxy st; mux := mux st; log := log st;
     metrics := metrics st ++ m |}.

(** [proxy = p] for a freshly allocated [p]. *)
Definition assign_new (p : ReverseProxy) (st : State) : State :=
  {| heap := heap st ++ [p]; proxy := Some (length (heap st)); mux := mux st;
     log := log st; metrics := metrics st |}.

(** A field assignment [proxy.f = v] through the package-level
    variable; [None] is a nil dereference. *)
Definition update_proxy (f : ReverseProxy -> ReverseProxy) (st : State) : option State :=
  match proxy st with
  | None => None
  | Some i =>
      match heap st !! i with
      | None => None
      | Some p => Some (set_heap (<[i := f p]> (heap st)) st)
      end
  end.

Definition set_Director (d : Director) (p : ReverseProxy) : ReverseProxy :=
  {| Director_ := d; ModifyResponse := ModifyResponse p; ErrorHandler := ErrorHandler p |}.

Definition set_ModifyResponse (h : option (Response -> Response * option error))
    (p : ReverseProxy) : ReverseProxy :=
  {| Director_ := Director_ p; ModifyResponse := h; ErrorHandler := ErrorHandler p |}.

Definition set_ErrorHandler (e : ErrorHandlerField) (p : ReverseProxy) : ReverseProxy :=
  {| Director_ := Director_ p; ModifyResponse := ModifyResponse p; ErrorHandler := e |}.

(** [http.Handle(pattern, handler)]: the library panics on an empty
    pattern and on a pattern registered before. *)
Definition Handle (pattern : string) (h : nat) (st : State) : option State :=
  if String.eqb pattern "" || bool_decide (pattern ∈ (mux st).*1) then None
  else Some {| heap := heap st; proxy := proxy st; mux := mux st ++ [(pattern, h)];
               log := log st; metrics := metrics st |}.

(** [metricRegister(req, target)] *)
Definition metricRegister (req : Request) (target : option URL) (st : State) : option State :=
  match target with
  | None => None
  | Some t =>
      match extractIpAddr req with
      | None => None
      | Some ip =>
          Some (add_metrics
                  [CountersByEndpoint_Inc (RequestURI req) t ip (Method req);
                   TotalRequests_Inc (RequestURI req) "proxy"] st)
      end
  end.

Section Serving.

Variable GetKEY : string -> string -> string * option error.
Variable jwt_Verify : forall (token key : string) (now : Z), option error.

(** [url.Parse] *)
Variable url_Parse : string -> URL + error.

(** Whether [httputil.NewSingleHostReverseProxy(nil)] returns: it
    does from Go 1.20 on; before, it reads the nil target and panics. *)
Variable NewSingleHostReverseProxy_nil_returns : bool.

(** The transport of the reverse proxies: the upstream's answer to an
    outbound request. *)
Variable RoundTrip : Request -> Response + error.

Definition NewSingleHostReverseProxy (target : option URL) : option ReverseProxy :=
  match target with
  | None =>
      if NewSingleHostReverseProxy_nil_returns
      then Some {| Director_ := director_default None; ModifyResponse := None;
                   ErrorHandler := ErrorHandler_nil |}
      else None
  | Some _ =>
      Some {| Director_ := director_default target; ModifyResponse := None;
              ErrorHandler := ErrorHandler_nil |}
  end.

(** A call of a [Director] closure on the outbound request.  The two
    closures of [ProxyGateway] read the package-level [proxy] when they
    run. *)
Fixpoint run_Director (d : Director) (now : Z) (req : Request) (st : State)
    : option (Request * State) :=
  match d with
  | director_default target =>
      match target with
      | None => None
      | Some t => Some (rewriteRequestURL req t, st)
      end
  | director_plain originalDirector target =>
      match run_Director originalDirector now req st with
      | None => None
      | Some (req, st) =>
          match metricRegister req target st with
          | None => None
          | Some st => Some (req, st)
          end
      end
  | director_protected originalDirector target securityType engine key =>
      match run_Director originalDirector now req st with
      | None => None
      | Some (req, st) =>
          match metricRegister req target st with
          | None => None
          | Some st =>
              if String.eqb securityType "jwt" then
                match checkJWTSecretKeyFromRequest jwt_Verify now req key with
                | None => None
                | Some (lines, err) =>
                    match update_proxy (set_ModifyResponse (Some (modifyResponse err)))
                            (add_log lines st) with
                    | None => None
                    | Some st => Some (req, st)
                    end
                end
              else if String.eqb securityType "apikey" then
                let '(lines, err) := checkAPIKEYSecretKeyFromRequest GetKEY req engine key in
                match update_proxy (set_ModifyResponse (Some (modifyResponse err)))
                        (add_log lines st) with
                | None => None
                | Some st => Some (req, st)
                end
              else Some (req, st)
          end
      end
  end.

(** The error handler of a reverse proxy: the library's default
    answers 502, the one [ProxyGateway] installs answers 500 with the
    error's text. *)
Definition run_ErrorHandler (h : ErrorHandlerField) (e : error) : Written :=
  match h with
  | ErrorHandler_nil => Failed StatusBadGateway None
  | ErrorHandler_gateway => Failed StatusInternalServerError (Some e)
  end.

(** [p.ServeHTTP(rw, req)] of [httputil.ReverseProxy] for the proxy at
    address [i]: director, round trip, then the [ModifyResponse] hook
    the proxy holds at that moment. *)
Definition ReverseProxy_ServeHTTP (i : nat) (now : Z) (req : Request) (st : State)
    : option (Written * State) :=
  match heap st !! i with
  | None => None
  | Some p =>
      match run_Director (Director_ p) now req st with
      | None => None
      | Some (outreq, st) =>
          match heap st !! i with
          | None => None
          | Some p =>
              match RoundTrip outreq with
              | inr e => Some (run_ErrorHandler (ErrorHandler p) e, st)
              | inl res =>
                  match ModifyResponse p with
                  | None => Some (Forwarded res, st)
                  | Some hook =>
                      match hook res with
                      | (_, Some e) => Some (run_ErrorHandler (ErrorHandler p) e, st)
                      | (res, None) => Some (Forwarded res, st)
                      end
                  end
              end
          end
      end
  end.

(** [http.StripPrefix(prefix, h).ServeHTTP(rw, req)] for a non-empty
    prefix, [h] being the proxy at address [i]. *)
Definition StripPrefix_ServeHTTP (prefix : string) (i : nat) (now : Z) (req : Request)
    (st : State) : option (Written * State) :=
  let u := URL_ req in
  if HasPrefix (Path u) prefix then
    let p := String.substring (String.length prefix)
               (String.length (Path u) - String.length prefix) (Path u) in
    ReverseProxy_ServeHTTP i now
      {| Method := Method req; RequestURI := RequestURI req;
         URL_ := {| Scheme := Scheme u; Host := Host u; Path := p; RawQuery := RawQuery u |};
         RemoteAddr := RemoteAddr req; ReqHeader := ReqHeader req; Ctx := Ctx req |} st
  else Some (NotFound, st).

(** The handler registered for [pattern]. *)
Definition serve (pattern : string) (now : Z) (req : Request) (st : State)
    : option (Written * State) :=
  match list_find (fun r => r.1 = pattern) (mux st) with
  | None => Some (NotFound, st)
  | Some (_, (_, i)) => StripPrefix_ServeHTTP pattern i now req st
  end.

(** One round of the loop of [ProxyGateway]. *)
Definition ProxyGateway_endpoint (HostURI_ engine key securityType : string)
    (endpoint : Endpoint) (st : State) : option State :=
  let '(target, st) :=
    match url_Parse (HostURI_ +:+ PathEndpoint endpoint) with
    | inl u => (Some u, st)
    | inr err => (None, add_log [LogError "proxy: %v" [AErr err]] st)
    end in
  if PathProtected endpoint then
    match NewSingleHostReverseProxy target with
    | None => None
    | Some p =>
        let st := assign_new p st in
        match proxy st ≫= (heap st !!.) with
        | None => None
        | Some p0 =>
            let originalDirector := Director_ p0 in
            match update_proxy
                    (set_Director
                       (director_protected originalDirector target securityType engine key))
                    st with
            | None => None
            | Some st =>
                match update_proxy (set_ErrorHandler ErrorHandler_gateway) st with
                | None => None
                | Some st =>
                    match proxy st with
                    | None => None
                    | Some i => Handle (PathToProxy endpoint) i st
                    end
                end
            end
        end
    end
  else
    match NewSingleHostReverseProxy target with
    | None => None
    | Some p =>
        let st := assign_new p st in
        match proxy st ≫= (heap st !!.) with
        | None => None
        | Some p0 =>
            let originalDirector := Director_ p0 in
            match update_proxy (set_Director (director_plain originalDirector target)) st with
            | None => None
            | Some st =>
                match proxy st with
                | None => None
                | Some i => Handle (PathToProxy endpoint) i st
                end
            end
        end
    end.

(** [ph.ProxyGateway(endpoints, engine, key, securityType)] *)
Definition ProxyGateway (endpoints : ProxyEndpoint) (engine key securityType : string)
    (st : State) : option State :=
  foldl (fun st endpoint =>
           st ≫= ProxyGateway_endpoint (HostURI endpoints) engine key securityType endpoint)
        (Some st) (Endpoints endpoints).

End Serving.

(** *** The client address *)

(** The address [extractIpAddr] goes on with after it has looked at
    [X-Forwarded-For]. *)
Lemma picked_address (fwd : string) :
  (if bool_decide (1 < length (Split fwd ", "))%nat
   then Split fwd ", " !! 0%nat else Some fwd) = Some (before_first ", " fwd).
Proof.
  case_bool_decide as Hlen.
  - now apply Split_head.
  - f_equal. symmetry. apply Split_single; [discriminate | lia].
Qed.

(** The address picked from a header whose first entry holds no
    comma. *)
Lemma picked_first_entry (first others : string) :
  Contains first "," = false ->
  before_first ", " (first +:+ ", " +:+ others) = first.
Proof. apply before_first_app. Qed.

(** A port suffix after a host without colon is cut off. *)
Lemma port_cut (host port : string) :
  Contains host ":" = false -> before_first ":" (host +:+ ":" +:+ port) = host.
Proof. apply before_first_app. Qed.

(** A request from [remote] with the given [X-Forwarded-For] values. *)
Definition example_from (remote : string) (forwarded : list string) : Request :=
  {| Method := "GET"; RequestURI := "/"; URL_ := mkURL "" "" "/" "";
     RemoteAddr := remote;
     ReqHeader := match forwarded with
                  | [] => ∅
                  | _ => {["X-Forwarded-For" := forwarded]}
                  end;
     Ctx := [] |}.

(** C8 at inputs where it fails.  The list [10.0.0.1, 10.0.0.2] is cut
    at its first entry, but the list [10.0.0.1,10.0.0.2], separated by
    commas alone, is returned whole: the code splits on a comma
    followed by a space.  The remote address [[2001:db8::1]:443] of an
    IPv6 client loses more than its port suffix: the code cuts at the
    first colon.  The loopback address in its plain notation [::1] is
    cut down to the empty string. *)
Theorem extractIpAddr_list_and_ipv6 :
  extractIpAddr (example_from "192.0.2.7:51000" ["10.0.0.1, 10.0.0.2"]) = Some "10.0.0.1"%string /\
  extractIpAddr (example_from "192.0.2.7:51000" ["10.0.0.1,10.0.0.2"])
    = Some "10.0.0.1,10.0.0.2"%string /\
  extractIpAddr (example_from "[2001:db8::1]:443" []) = Some "[2001"%string /\
  extractIpAddr (example_from "192.0.2.7:51000" ["::1"]) = Some ""%string.
Proof. repeat split; reflexivity. Qed.

(** *** The authorization checks *)

(** The token the JWT check verifies: the text between the first and
    the second space of the header. *)
Lemma bearer_token (rest : string) :
  Split ("Bearer " +:+ rest) " " !! 1%nat = Some (before_first " " rest).
Proof.
  unfold Split. cbv [String.append]. simpl. rewrite <- Split_from_fst.
  destruct (Split_from " " 0 rest) as [f fs]. reflexivity.
Qed.

Lemma bearer_token_whole (token : string) :
  Contains token " " = false ->
  Split ("Bearer " +:+ token) " " !! 1%nat = Some token.
Proof.
  intros H. rewrite bearer_token. f_equal. now apply before_first_no_sep.
Qed.

(** A stand-in for the JWT library in examples: it knows three
    tokens. *)
Definition example_Verify (token key : string) (now : Z) : option error :=
  if String.eqb token "forged.token.sig" then Some jwt_ErrHMACVerification
  else if String.eqb token "stale.token.sig" then Some jwt_ErrExpValidation
  else if String.eqb token "good.token.sig" then None
  else Some jwt_ErrMalformed.

Definition example_request (path : string) (headers : list (string * list string)) : Request :=
  {| Method := "GET"; RequestURI := path; URL_ := mkURL "" "" path "";
     RemoteAddr := "192.0.2.7:51000"; ReqHeader := list_to_map headers; Ctx := [] |}.

Section CheckFacts.

Variable GetKEY : string -> string -> string * option error.
Variable jwt_Verify : forall (token key : string) (now : Z), option error.

(** C4: the JWT check answers the bearer-format error for a header
    without the ["Bearer "] prefix; for a header ["Bearer " ++ token]
    it answers the HMAC error when the library reports a signature
    that does not verify under the configured key, the expiration
    error when the library reports an expired [exp], and [nil] when the
    library accepts the token. *)
Theorem checkJWT_outcomes (now : Z) (req : Request) (key : string) :
  let header := Get (ReqHeader req) "Authorization" in
  let check := checkJWTSecretKeyFromRequest jwt_Verify now req key in
  (HasPrefix header "Bearer " = false ->
   snd <$> check = Some (Some ErrBearerTokenFormat)) /\
  (forall token : string,
     header = "Bearer " +:+ token -> Contains token " " = false ->
     (jwt_Verify token key now = Some jwt_ErrHMACVerification ->
      snd <$> check = Some (Some ErrTokenHMACValidation)) /\
     (jwt_Verify token key now = Some jwt_ErrExpValidation ->
      snd <$> check = Some (Some ErrTokenExpValidation)) /\
     (jwt_Verify token key now = None -> check = Some ([], None))).
Proof.
  intros header check. subst check. unfold checkJWTSecretKeyFromRequest.
  fold header. split.
  - intros ->. reflexivity.
  - intros token Hh Hsp. rewrite Hh, HasPrefix_app. cbn [negb].
    rewrite (bearer_token_whole _ Hsp). cbn [mbind option_bind].
    repeat split; intros ->; reflexivity.
Qed.

(** C9: when the library fails to verify the token with an error that
    is neither its expiration error nor its HMAC error, the JWT check
    returns [nil]. *)
Theorem checkJWT_other_error_passes (now : Z) (req : Request) (key rest : string)
    (e : error) :
  Get (ReqHeader req) "Authorization" = "Bearer " +:+ rest ->
  jwt_Verify (before_first " " rest) key now = Some e ->
  e <> jwt_ErrExpValidation -> e <> jwt_ErrHMACVerification ->
  checkJWTSecretKeyFromRequest jwt_Verify now req key = Some ([], None).
Proof.
  intros Hh Hv Hexp Hmac. unfold checkJWTSecretKeyFromRequest.
  rewrite Hh, HasPrefix_app, bearer_token. cbn [negb mbind option_bind].
  rewrite Hv. unfold ErrorIs.
  rewrite !bool_decide_eq_false_2 by assumption. reflexivity.
Qed.

(** With a successful lookup the API-key check passes exactly on the
    stored secret. *)
Lemma checkAPIKEY_found (req : Request) (engine key secret : string) :
  GetKEY engine key = (secret, None) ->
  snd (checkAPIKEYSecretKeyFromRequest GetKEY req engine key) =
    if String.eqb secret (Get (ReqHeader req) "X-API-KEY") then None
    else Some (NewError "Invalid API KEY").
Proof.
  intros H. unfold checkAPIKEYSecretKeyFromRequest. rewrite H.
  destruct (String.eqb secret _); reflexivity.
Qed.

(** A failed lookup is logged and the comparison goes ahead with the
    value that came with the error. *)
Lemma checkAPIKEY_lookup_failed (req : Request) (engine key v : string) (e : error) :
  GetKEY engine key = (v, Some e) ->
  Get (ReqHeader req) "X-API-KEY" = v ->
  checkAPIKEYSecretKeyFromRequest GetKEY req engine key =
    ([LogError "proxy: %v" [AErr ErrGetkeyView];
      LogInfo "proxy: check secret from request OK" []], None).
Proof.
  intros H Hh. unfold checkAPIKEYSecretKeyFromRequest. rewrite H, Hh.
  now rewrite String.eqb_refl.
Qed.

End CheckFacts.

Lemma checkJWT_outcomes_witness :
  snd <$> checkJWTSecretKeyFromRequest example_Verify 0
            (example_request "/" [("Authorization", ["Basic dXNlcjpwdw=="])]) "k"
    = Some (Some ErrBearerTokenFormat) /\
  snd <$> checkJWTSecretKeyFromRequest example_Verify 0
            (example_request "/" [("Authorization", ["Bearer forged.token.sig"])]) "k"
    = Some (Some ErrTokenHMACValidation) /\
  snd <$> checkJWTSecretKeyFromRequest example_Verify 0
            (example_request "/" [("Authorization", ["Bearer stale.token.sig"])]) "k"
    = Some (Some ErrTokenExpValidation) /\
  checkJWTSecretKeyFromRequest example_Verify 0
    (example_request "/" [("Authorization", ["Bearer good.token.sig"])]) "k"
    = Some ([], None).
Proof.
  split; [|split; [|split]].
  - apply (proj1 (checkJWT_outcomes example_Verify 0
       (example_request "/" [("Authorization", ["Basic dXNlcjpwdw=="])]) "k")).
    reflexivity.
  - apply (proj1 (proj2 (checkJWT_outcomes example_Verify 0
       (example_request "/" [("Authorization", ["Bearer forged.token.sig"])]) "k")
       "forged.token.sig" eq_refl eq_refl)).
    reflexivity.
  - apply (proj1 (proj2 (proj2 (checkJWT_outcomes example_Verify 0
       (example_request "/" [("Authorization", ["Bearer stale.token.sig"])]) "k")
       "stale.token.sig" eq_refl eq_refl))).
    reflexivity.
  - apply (proj2 (proj2 (proj2 (checkJWT_outcomes example_Verify 0
       (example_request "/" [("Authorization", ["Bearer good.token.sig"])]) "k")
       "good.token.sig" eq_refl eq_refl))).
    reflexivity.
Defined.

Lemma checkJWT_other_error_passes_witness :
  checkJWTSecretKeyFromRequest example_Verify 0
    (example_request "/" [("Authorization", ["Bearer not-a-jwt"])]) "k"
  = Some ([], None).
Proof.
  apply (checkJWT_other_error_passes example_Verify 0 _ "k" "not-a-jwt" jwt_ErrMalformed);
    [reflexivity | reflexivity | discriminate | discriminate].
Defined.

(** C3 at the input where it fails: the secret store is down (it
    returns the empty string with its error) and the request carries
    no [X-API-KEY]; the check returns [nil]. *)
Theorem checkAPIKEY_store_down_passes :
  checkAPIKEYSecretKeyFromRequest
    (fun _ _ => (EmptyString, Some (Other "secret store unreachable")))
    (example_request "/svc-a/x" []) "engine" "key"
  = ([LogError "proxy: %v" [AErr ErrGetkeyView];
      LogInfo "proxy: check secret from request OK" []], None).
Proof. reflexivity. Qed.

(** *** The response hook and the handles *)

(** Stand-ins for the collaborators in examples: a parser for
    [http://host/path], a secret store holding one key, and an
    upstream that answers 200 with the path it was asked for. *)
Definition example_Parse (s : string) : URL + error :=
  if HasPrefix s "http://" then
    let rest := String.substring 7 (String.length s - 7) s in
    let host := before_first "/" rest in
    inl (mkURL "http" host
           (String.substring (String.length host)
              (String.length rest - String.length host) rest) "")
  else inr (Other "missing protocol scheme").

Definition example_GetKEY (engine key : string) : string * option error :=
  ("s3cret"%string, None).

Definition example_RoundTrip (outreq : Request) : Response + error :=
  inl {| StatusCode := 200;
         RespHeader := {["Content-Type" := ["text/plain"]]};
         Body := Path (URL_ outreq) |}.

(** A gateway with one protected endpoint, one with a protected and
    an unprotected endpoint, one with an unprotected endpoint. *)
Definition example_protected : ProxyEndpoint :=
  mkProxyEndpoint "http://upstream" [mkEndpoint "/a" "/svc-a/" true].

Definition example_mixed : ProxyEndpoint :=
  mkProxyEndpoint "http://upstream"
    [mkEndpoint "/a" "/svc-a/" true; mkEndpoint "/b" "/svc-b/" false].

Definition example_open : ProxyEndpoint :=
  mkProxyEndpoint "http://upstream" [mkEndpoint "/b" "/svc-b/" false].

Definition example_gateway (endpoints : ProxyEndpoint) : option State :=
  ProxyGateway example_Parse true endpoints "engine" "key" "apikey" init.

Definition example_serve (pattern : string) (req : Request) (st : State)
    : option (Written * State) :=
  serve example_GetKEY example_Verify example_RoundTrip pattern 0 req st.

Section ServingFacts.

Variable GetKEY : string -> string -> string * option error.
Variable jwt_Verify : forall (token key : string) (now : Z), option error.
Variable RoundTrip : Request -> Response + error.

Lemma modifyResponse_fst (err : option error) (resp : Response) :
  (modifyResponse err resp).1 =
    {| StatusCode := StatusCode resp;
       RespHeader := Set_ (RespHeader resp) "X-Proxy" "Ngonx";
       Body := Body resp |}.
Proof. destruct err; reflexivity. Qed.

Lemma modifyResponse_snd (err : option error) (resp : Response) :
  (modifyResponse err resp).2 = err.
Proof. destruct err; reflexivity. Qed.

(** The metrics step leaves the proxies alone. *)
Lemma metricRegister_heap (req : Request) (target : option URL) (st st' : State) :
  metricRegister req target st = Some st' -> heap st' = heap st /\ proxy st' = proxy st.
Proof.
  unfold metricRegister. destruct target; [|discriminate].
  destruct (extractIpAddr req); [|discriminate].
  intros [= <-]. split; reflexivity.
Qed.

(** C5, as amended: every response that goes through the hook
    [modifyResponse(err)] comes out with the header [X-Proxy: Ngonx],
    status and body unchanged, whether [err] is nil or not, and the
    hook returns [err] after it has set the header; a handle that
    holds this hook when the upstream answers forwards the stamped
    response when [err] is nil and answers through its error handler
    otherwise; a handle that holds no hook forwards the upstream's
    response as it is; and neither the director of an unprotected
    endpoint nor that of a protected endpoint with a security type
    other than [jwt] and [apikey] installs a hook. *)
Theorem hook_stamps_response (err : option error) (resp : Response) :
  (Get (RespHeader (modifyResponse err resp).1) "X-Proxy" = "Ngonx" /\
   StatusCode (modifyResponse err resp).1 = StatusCode resp /\
   Body (modifyResponse err resp).1 = Body resp /\
   (modifyResponse err resp).2 = err) /\
  (forall (i : nat) (now : Z) (req outreq : Request) (st st1 : State)
          (p p1 : ReverseProxy),
     heap st !! i = Some p ->
     run_Director GetKEY jwt_Verify (Director_ p) now req st = Some (outreq, st1) ->
     heap st1 !! i = Some p1 ->
     RoundTrip outreq = inl resp ->
     (ModifyResponse p1 = Some (modifyResponse err) ->
      ReverseProxy_ServeHTTP GetKEY jwt_Verify RoundTrip i now req st =
        Some (match err with
              | None => Forwarded (modifyResponse err resp).1
              | Some e => run_ErrorHandler (ErrorHandler p1) e
              end, st1)) /\
     (ModifyResponse p1 = None ->
      ReverseProxy_ServeHTTP GetKEY jwt_Verify RoundTrip i now req st =
        Some (Forwarded resp, st1))) /\
  (forall (target : URL) (now : Z) (req outreq : Request) (st st1 : State),
     run_Director GetKEY jwt_Verify
       (director_plain (director_default (Some target)) (Some target)) now req st
       = Some (outreq, st1) ->
     heap st1 = heap st) /\
  (forall (target : URL) (securityType engine key : string) (now : Z)
          (req outreq : Request) (st st1 : State),
     securityType <> "jwt" -> securityType <> "apikey" ->
     run_Director GetKEY jwt_Verify
       (director_protected (director_default (Some target)) (Some target)
          securityType engine key) now req st
       = Some (outreq, st1) ->
     heap st1 = heap st).
Proof.
  split; [|split; [|split]].
  - rewrite modifyResponse_fst, modifyResponse_snd. cbn [RespHeader StatusCode Body].
    rewrite Get_Set. auto.
  - intros i now req outreq st st1 p p1 Hp Hd Hp1 Hrt.
    unfold ReverseProxy_ServeHTTP. rewrite Hp, Hd, Hp1, Hrt.
    split; intros ->; [|reflexivity].
    destruct err; reflexivity.
  - intros target now req outreq st st1. cbn [run_Director].
    destruct (metricRegister _ _ st) as [st'|] eqn:E; [|discriminate].
    intros [= _ <-]. now apply metricRegister_heap in E.
  - intros target securityType engine key now req outreq st st1 Hjwt Hkey.
    cbn [run_Director].
    destruct (metricRegister _ _ st) as [st'|] eqn:E; [|discriminate].
    apply String.eqb_neq in Hjwt, Hkey. rewrite Hjwt, Hkey.
    intros [= _ <-]. now apply metricRegister_heap in E.
Qed.

End ServingFacts.

(** The one-endpoint gateways as [ProxyGateway] builds them. *)
Definition example_target (path : string) : URL := mkURL "http" "upstream" path "".

Definition example_protected_state : State :=
  {| heap := [ {| Director_ :=
                    director_protected (director_default (Some (example_target "/a")))
                      (Some (example_target "/a")) "apikey" "engine" "key";
                  ModifyResponse := None;
                  ErrorHandler := ErrorHandler_gateway |} ];
     proxy := Some 0%nat; mux := [("/svc-a/"%string, 0%nat)]; log := []; metrics := [] |}.

Definition example_open_state : State :=
  {| heap := [ {| Director_ :=
                    director_plain (director_default (Some (example_target "/b")))
                      (Some (example_target "/b"));
                  ModifyResponse := None;
                  ErrorHandler := ErrorHandler_nil |} ];
     proxy := Some 0%nat; mux := [("/svc-b/"%string, 0%nat)]; log := []; metrics := [] |}.

Lemma example_protected_built :
  example_gateway example_protected = Some example_protected_state.
Proof. reflexivity. Qed.

Lemma example_open_built : example_gateway example_open = Some example_open_state.
Proof. reflexivity. Qed.

Definition example_response (path : string) : Response :=
  {| StatusCode := 200; RespHeader := {["Content-Type" := ["text/plain"]]}; Body := path |}.

Lemma hook_stamps_response_witness :
  (exists st1,
     ReverseProxy_ServeHTTP example_GetKEY example_Verify example_RoundTrip 0 0
       (example_request "/x" [("X-Api-Key", ["wrong"])]) example_protected_state
     = Some (Failed 500 (Some (NewError "Invalid API KEY")), st1)) /\
  (exists st1,
     ReverseProxy_ServeHTTP example_GetKEY example_Verify example_RoundTrip 0 0
       (example_request "/x" [("X-Api-Key", ["s3cret"])]) example_protected_state
     = Some (Forwarded
               {| StatusCode := 200;
                  RespHeader := {["Content-Type" := ["text/plain"]; "X-Proxy" := ["Ngonx"]]};
                  Body := "/a/x" |}, st1)) /\
  (exists st1,
     ReverseProxy_ServeHTTP example_GetKEY example_Verify example_RoundTrip 0 0
       (example_request "/x" []) example_open_state
     = Some (Forwarded (example_response "/b/x"), st1)) /\
  (exists outreq st1,
     run_Director example_GetKEY example_Verify
       (director_plain (director_default (Some (example_target "/b")))
          (Some (example_target "/b"))) 0 (example_request "/x" []) example_open_state
     = Some (outreq, st1) /\
     heap st1 = heap example_open_state) /\
  (exists outreq st1,
     run_Director example_GetKEY example_Verify
       (director_protected (director_default (Some (example_target "/a")))
          (Some (example_target "/a")) "basic" "engine" "key") 0
       (example_request "/x" []) example_protected_state
     = Some (outreq, st1) /\
     heap st1 = heap example_protected_state).
Proof.
  split; [|split; [|split; [|split]]];
    [eexists | eexists | eexists | do 2 eexists | do 2 eexists].
  - etransitivity;
      [ eapply (proj1 (proj1 (proj2 (hook_stamps_response example_GetKEY example_Verify
                  example_RoundTrip (Some (NewError "Invalid API KEY"))
                  (example_response "/a/x")))
                0%nat 0 (example_request "/x" [("X-Api-Key", ["wrong"])]) _
                example_protected_state _ _ _ eq_refl eq_refl eq_refl eq_refl));
        reflexivity
      | reflexivity ].
  - etransitivity;
      [ eapply (proj1 (proj1 (proj2 (hook_stamps_response example_GetKEY example_Verify
                  example_RoundTrip None (example_response "/a/x")))
                0%nat 0 (example_request "/x" [("X-Api-Key", ["s3cret"])]) _
                example_protected_state _ _ _ eq_refl eq_refl eq_refl eq_refl));
        reflexivity
      | reflexivity ].
  - etransitivity;
      [ eapply (proj2 (proj1 (proj2 (hook_stamps_response example_GetKEY example_Verify
                  example_RoundTrip None (example_response "/b/x")))
                0%nat 0 (example_request "/x" []) _
                example_open_state _ _ _ eq_refl eq_refl eq_refl eq_refl));
        reflexivity
      | reflexivity ].
  - split; [reflexivity|].
    exact (proj1 (proj2 (proj2 (hook_stamps_response example_GetKEY example_Verify
              example_RoundTrip None (example_response "/b/x"))))
             (example_target "/b") 0 (example_request "/x" []) _ example_open_state _
             eq_refl).
  - split; [reflexivity|].
    refine (proj2 (proj2 (proj2 (hook_stamps_response example_GetKEY example_Verify
              example_RoundTrip None (example_response "/a/x"))))
             (example_target "/a") "basic" "engine" "key" 0 (example_request "/x" []) _
             example_protected_state _ _ _ eq_refl); discriminate.
Defined.

(** C5 as stated fails: the response of an unprotected endpoint is
    forwarded without the header. *)
Lemma unprotected_response_unstamped_counterexample :
  exists st1,
    example_gateway example_open ≫= example_serve "/svc-b/" (example_request "/svc-b/x" [])
      = Some (Forwarded (example_response "/b/x"), st1) /\
    Get (RespHeader (example_response "/b/x")) "X-Proxy" <> "Ngonx".
Proof. eexists. split; [reflexivity | discriminate]. Qed.

(** C6 at an input where it fails.  The gateway has the protected
    endpoint [/svc-a/] and, configured after it, the unprotected
    [/svc-b/].  A request for [/svc-a/] with a wrong key fails the
    check, yet the upstream's answer is forwarded: the hook with the
    check's error is stored in the handle of [/svc-b/], the handle the
    package-level [proxy] points to, and the handle of [/svc-a/] holds
    none.  The next request for [/svc-b/] is rejected with that
    error. *)
Theorem hook_lands_on_last_handle :
  exists st0 st1 st2,
    example_gateway example_mixed = Some st0 /\
    mux st0 = [("/svc-a/"%string, 0%nat); ("/svc-b/"%string, 1%nat)] /\
    example_serve "/svc-a/" (example_request "/svc-a/x" [("X-Api-Key", ["wrong"])]) st0
      = Some (Forwarded (example_response "/a/x"), st1) /\
    log st1 = [LogError "proxy: Invalid API KEY" []] /\
    ModifyResponse <$> heap st1 !! 0%nat = Some None /\
    ModifyResponse <$> heap st1 !! 1%nat
      = Some (Some (modifyResponse (Some (NewError "Invalid API KEY")))) /\
    example_serve "/svc-b/" (example_request "/svc-b/y" []) st1
      = Some (Failed StatusBadGateway None, st2).
Proof.
  do 3 eexists.
  split; [reflexivity|]. split; [reflexivity|]. split; [reflexivity|].
  split; [reflexivity|]. split; [reflexivity|]. split; reflexivity.
Qed.

End Gateway.

(** ** The load balancer ([cmd/cli/lb.go]) *)

Module LB.
Import strings http context.

(** Modelled from the spec: [domain.Backend], whose declaration is not
    among the sources, with the three fields [StartLB] sets (the
    spec's [address], [alive] and [forwardHandle]).  [ReverseProxy] is
    the proxy built for the backend in [StartLB]; such a proxy is never
    changed after the loop that builds it, so it is kept as the target
    it was built for, and its [ErrorHandler] is the function literal of
    [StartLB] closed over that target and the proxy itself. *)
Record Backend : Type := mkBackend {
  URL : option http.URL;
  Alive : bool;
  ReverseProxy : option http.URL;
}.

(** Modelled from the spec: the server pool of package [handlers],
    which is not among the sources: "[backends]: ordered sequence of
    Backend", "[cursor]: monotonically increasing counter used to
    compute the next index", an unsigned 64-bit counter. *)
Record ServerPool : Type := mkServerPool {
  backends : list Backend;
  cursor : Z;
}.

(** Modelled from the spec: [addBackend(backend)] "appends to
    [backends]". *)
Definition AddBackend (backend : Backend) (s : ServerPool) : ServerPool :=
  {| backends := backends s ++ [backend]; cursor := cursor s |}.

Definition SetAlive (alive : bool) (b : Backend) : Backend :=
  {| URL := URL b; Alive := alive; ReverseProxy := ReverseProxy b |}.

Fixpoint mark (address : http.URL) (alive : bool) (bs : list Backend) : list Backend :=
  match bs with
  | [] => []
  | b :: bs' =>
      if decide (URL b = Some address) then SetAlive alive b :: bs'
      else b :: mark address alive bs'
  end.

(** Modelled from the spec: [markBackendStatus(address, alive)] "finds
    the Backend matching [address] and sets its liveness flag ...
    No-op if not found". *)
Definition MarkBackendStatus (address : http.URL) (alive : bool) (s : ServerPool)
    : ServerPool :=
  {| backends := mark address alive (backends s); cursor := cursor s |}.

(** Modelled from the spec: [isBackendAlive(address)]. *)
Definition IsBackendAlive (address : http.URL) (s : ServerPool) : bool :=
  match list_find (fun b => URL b = Some address) (backends s) with
  | Some (_, b) => Alive b
  | None => false
  end.

(** The scan of [nextPeer]: [k] positions from [start], wrapping. *)
Fixpoint scan (bs : list Backend) (start k : nat) : option Backend :=
  match k with
  | O => None
  | S k' =>
      match bs !! (start mod length bs)%nat with
      | Some b => if Alive b then Some b else scan bs (S start) k'
      | None => None
      end
  end.

(** Modelled from the spec: [nextPeer()] "increments [cursor], then
    scans forward from [cursor mod length] for up to [length]
    positions, returning the first Backend whose liveness flag is true;
    returns none if no backend is alive". *)
Definition NextPeer (s : ServerPool) : option Backend * ServerPool :=
  let c := (cursor s + 1) mod 2 ^ 64 in
  let n := length (backends s) in
  (scan (backends s) (Z.to_nat (c mod Z.of_nat n)) n,
   {| backends := backends s; cursor := c |}).

(** Modelled from the spec: the counters of the retry/attempt context,
    "absence in context = 0" ([handlers.GetRetryFromContext],
    [handlers.GetAttemptsFromContext]). *)
Definition GetRetryFromContext (r : Request) : Z :=
  default 0 (Value (Ctx r) RETRY).

Definition GetAttemptsFromContext (r : Request) : Z :=
  default 0 (Value (Ctx r) ATTEMPTS).

(** What a request makes happen, in order. *)
Inductive Event : Type :=
  | Log (e : Entry)
  | Sleep (d : Z)
  | Forward (target : http.URL) (outreq : Request).

(** What the client is sent. *)
Inductive Written : Type :=
  | Forwarded (resp : Response)
  | Error_ (msg : string) (code : Z).

(** The state a request runs in: the pool, what happened so far, and
    the number of round trips made. *)
Record State : Type := mkState {
  pool : ServerPool;
  trace : list Event;
  clock : nat;
}.

Definition emit (evs : list Event) (st : State) : State :=
  {| pool := pool st; trace := trace st ++ evs; clock := clock st |}.

Definition set_pool (s : ServerPool) (st : State) : State :=
  {| pool := s; trace := trace st; clock := clock st |}.

Definition tick (st : State) : State :=
  {| pool := pool st; trace := trace st; clock := S (clock st) |}.

(** How a call ends: it returns, it panics, or the model ran out of
    [fuel] before it did either. *)
Inductive Result : Type :=
  | Done (w : Written) (st : State)
  | Panic
  | OutOfFuel.

Section Requests.

(** [backoff.Default.Duration(retry)] in nanoseconds, the random
    source of its jitter held fixed; package [backoff] is not among the
    sources. *)
Variable Duration : Z -> Z.

(** The transport: the answer of the backend at [target] to the
    [n]-th round trip of the run. *)
Variable RoundTrip : forall (n : nat) (target : http.URL) (outreq : Request), Response + error.

(** A handler to call: [proxy.ServeHTTP] of the proxy built for a
    target. *)
Definition Handler : Type := option http.URL -> Request -> State -> Result.

(** Modelled from the spec: the top-level entry point
    [handlers.Lbalancer], section 4.4 steps 1 and 2: "Call
    [nextPeer()].  If none alive, respond with a service-unavailable
    failure immediately", else "forward the request through the
    selected Backend's [forwardHandle]". *)
Definition Lbalancer_body (ServeHTTP : Handler) (r : Request) (st : State) : Result :=
  let '(peer, s) := NextPeer (pool st) in
  let st := set_pool s st in
  match peer with
  | Some b => ServeHTTP (ReverseProxy b) r st
  | None => Done (Error_ "Service not available" StatusServiceUnavailable) st
  end.

(** What the [ErrorHandler] literal of [StartLB] does before its tail
    call, and which tail call it makes: [proxy.ServeHTTP] of its own
    proxy, or [handlers.Lbalancer]. *)
Inductive Next : Type :=
  | Retry (request : Request) (st : State)
  | Reroute (request : Request) (st : State).

Definition ErrorHandler_step (serverUrl : http.URL) (request : Request) (e : error)
    (st : State) : Next :=
  let st := emit [Log (LogInfo "[%s] %s\n" [AStr (Host serverUrl); AErr e])] st in
  let retry := GetRetryFromContext request in
  if retry <? 3 then
    let st := emit [Sleep (Duration retry)] st in
    let ctx := WithValue (Ctx request) RETRY (int.add retry 1) in
    Retry (WithContext request ctx) st
  else
    let st := set_pool (MarkBackendStatus serverUrl false (pool st)) st in
    let attempts := GetAttemptsFromContext request in
    let st :=
      emit [Log (LogInfo "%s(%s) Attempting retry %d\n"
                   [AStr (RemoteAddr request); AStr (Path (URL_ request)); AInt attempts])]
        st in
    let ctx := WithValue (Ctx request) ATTEMPTS (int.add attempts 1) in
    Reroute (WithContext request ctx) st.

(** The [ErrorHandler] literal of [StartLB], closed over [serverUrl]
    and [proxy]. *)
Definition ErrorHandler_body (ServeHTTP : Handler) (serverUrl : http.URL)
    (request : Request) (e : error) (st : State) : Result :=
  match ErrorHandler_step serverUrl request e st with
  | Retry request st => ServeHTTP (Some serverUrl) request st
  | Reroute request st => Lbalancer_body ServeHTTP request st
  end.

(** [proxy.ServeHTTP(writer, request)] of the proxy [StartLB] builds
    for [target]: the director points the request at the target (a nil
    target is dereferenced there), the round trip is made, and its
    error goes to the [ErrorHandler] together with the outbound
    request. *)
Fixpoint ServeHTTP (fuel : nat) (target : option http.URL) (request : Request)
    (st : State) : Result :=
  match fuel with
  | O => OutOfFuel
  | S fuel =>
      match target with
      | None => Panic
      | Some t =>
          let outreq := rewriteRequestURL request t in
          let st' := tick (emit [Forward t outreq] st) in
          match RoundTrip (clock st) t outreq with
          | inl res => Done (Forwarded res) st'
          | inr e => ErrorHandler_body (ServeHTTP fuel) t outreq e st'
          end
      end
  end.

Definition ErrorHandler (fuel : nat) : http.URL -> Request -> error -> State -> Result :=
  ErrorHandler_body (ServeHTTP fuel).

Definition Lbalancer (fuel : nat) : Request -> State -> Result :=
  Lbalancer_body (ServeHTTP fuel).

End Requests.

(** *** Startup *)

Inductive Startup : Type :=
  | Fatal (msg : string)
  | StartupPanic (logged : list Entry)
  | Configured (s : ServerPool) (logged : list Entry).

Section Start.

Variable url_Parse : string -> http.URL + error.
Variable NewSingleHostReverseProxy_nil_returns : bool.

(** One round of the loop over the tokens. *)
Definition StartLB_token (tok : string) (acc : Startup) : Startup :=
  match acc with
  | Configured s logged =>
      let '(serverUrl, logged) :=
        match url_Parse tok with
        | inl u => (Some u, logged)
        | inr err => (None, logged ++ [LogError "%s" [AErr err]])
        end in
      match serverUrl, NewSingleHostReverseProxy_nil_returns with
      | None, false => StartupPanic logged
      | _, _ =>
          let proxy := serverUrl in
          Configured
            (AddBackend {| URL := serverUrl; Alive := true; ReverseProxy := proxy |} s)
            (logged ++ [LogInfo "Configured server: %s\n" [AURL serverUrl]])
      end
  | _ => acc
  end.

(** [StartLB(serverList, port)] up to the creation of the server,
    started from the pool [s]. *)
Definition StartLB (serverList : string) (s : ServerPool) : Startup :=
  if (String.length serverList =? 0)%nat
  then Fatal "Please provide one or more backends to load balance"
  else
    let tokens := Split serverList "," in
    foldl (fun acc tok => StartLB_token tok acc) (Configured s []) tokens.

End Start.

(** *** The retry path *)

(** The sleeps of a trace, in order. *)
Definition sleeps (tr : list Event) : list Z :=
  omap (fun ev => match ev with Sleep d => Some d | _ => None end) tr.

(** The request the [ErrorHandler] passes on after [n] retries: the
    outbound request it was given, under a context with [RETRY = n]. *)
Definition retried (n : Z) (outreq : Request) : Request :=
  WithContext outreq (WithValue (Ctx outreq) RETRY n).

(** The request it hands back to [Lbalancer]. *)
Definition rerouted (n : Z) (outreq : Request) : Request :=
  WithContext outreq (WithValue (Ctx outreq) ATTEMPTS n).

Definition failure_line (serverUrl : http.URL) (e : error) : Event :=
  Log (LogInfo "[%s] %s\n" [AStr (Host serverUrl); AErr e]).

Definition attempt_line (request : Request) : Event :=
  Log (LogInfo "%s(%s) Attempting retry %d\n"
         [AStr (RemoteAddr request); AStr (Path (URL_ request));
          AInt (GetAttemptsFromContext request)]).

Definition next_state (n : Next) : State :=
  match n with
  | Retry _ st => st
  | Reroute _ st => st
  end.

Lemma mark_length (address : http.URL) (alive : bool) (bs : list Backend) :
  length (mark address alive bs) = length bs.
Proof.
  induction bs as [|b bs IH]; [reflexivity|].
  simpl. case_decide; simpl; congruence.
Qed.

(** After [MarkBackendStatus(address, false)] the pool reports the
    address as not alive. *)
Lemma IsBackendAlive_marked (address : http.URL) (s : ServerPool) :
  IsBackendAlive address (MarkBackendStatus address false s) = false.
Proof.
  unfold IsBackendAlive, MarkBackendStatus. cbn [backends].
  induction (backends s) as [|b bs IH]; [reflexivity|].
  cbn [mark]. case_decide as Hb.
  - cbn [list_find]. rewrite decide_True by exact Hb. reflexivity.
  - cbn [list_find]. rewrite decide_False by exact Hb.
    destruct (list_find _ (mark address false bs)) as [[i b']|]; exact IH.
Qed.

(** When no two backends share an address, no backend at a marked
    address is left alive. *)
Lemma mark_dead (address : http.URL) (bs : list Backend) (b : Backend) :
  NoDup (URL <$> bs) -> b ∈ mark address false bs -> URL b = Some address ->
  Alive b = false.
Proof.
  induction bs as [|b0 bs IH]; intros Hnd Hin Hurl.
  - cbn in Hin. now apply elem_of_nil in Hin.
  - rewrite fmap_cons in Hnd. apply NoDup_cons in Hnd. destruct Hnd as [Hfresh Hnd].
    cbn [mark] in Hin. case_decide as Hb0.
    + apply elem_of_cons in Hin. destruct Hin as [-> | Hin]; [reflexivity|].
      exfalso. apply Hfresh. rewrite Hb0, <- Hurl.
      now apply list_elem_of_fmap_2.
    + apply elem_of_cons in Hin. destruct Hin as [-> | Hin]; [congruence|].
      now apply IH.
Qed.

(** [nextPeer] answers with a backend of the pool that is alive. *)
Lemma scan_alive (bs : list Backend) (start k : nat) (b : Backend) :
  scan bs start k = Some b -> Alive b = true /\ b ∈ bs.
Proof.
  revert start. induction k as [|k IH]; intros start; [discriminate|].
  cbn [scan]. destruct (bs !! _) as [b'|] eqn:E; [|discriminate].
  destruct (Alive b') eqn:Ea.
  - intros [= <-]. split; [exact Ea|]. eapply list_elem_of_lookup_2, E.
  - apply IH.
Qed.

Lemma NextPeer_alive (s s' : ServerPool) (b : Backend) :
  NextPeer s = (Some b, s') ->
  Alive b = true /\ b ∈ backends s /\ backends s' = backends s.
Proof.
  unfold NextPeer. intros [= H <-].
  apply scan_alive in H. tauto.
Qed.

Section RequestFacts.

Variable Duration : Z -> Z.
Variable RoundTrip : forall (n : nat) (target : http.URL) (outreq : Request), Response + error.

Lemma ServeHTTP_ok (fuel : nat) (t : http.URL) (request : Request) (st : State)
    (res : Response) :
  RoundTrip (clock st) t (rewriteRequestURL request t) = inl res ->
  ServeHTTP Duration RoundTrip (S fuel) (Some t) request st =
    Done (Forwarded res) (tick (emit [Forward t (rewriteRequestURL request t)] st)).
Proof. intros H. cbn [ServeHTTP]. now rewrite H. Qed.

Lemma ServeHTTP_error (fuel : nat) (t : http.URL) (request : Request) (st : State)
    (e : error) :
  RoundTrip (clock st) t (rewriteRequestURL request t) = inr e ->
  ServeHTTP Duration RoundTrip (S fuel) (Some t) request st =
    ErrorHandler Duration RoundTrip fuel t (rewriteRequestURL request t) e
      (tick (emit [Forward t (rewriteRequestURL request t)] st)).
Proof. intros H. cbn [ServeHTTP]. now rewrite H. Qed.

Lemma ErrorHandler_step_retry (serverUrl : http.URL) (request : Request) (e : error)
    (st : State) :
  GetRetryFromContext request < 3 ->
  ErrorHandler_step Duration serverUrl request e st =
    Retry (retried (int.add (GetRetryFromContext request) 1) request)
      (emit [Sleep (Duration (GetRetryFromContext request))]
         (emit [failure_line serverUrl e] st)).
Proof.
  intros H. unfold ErrorHandler_step.
  apply Z.ltb_lt in H. rewrite H. reflexivity.
Qed.

Lemma ErrorHandler_step_reroute (serverUrl : http.URL) (request : Request) (e : error)
    (st : State) :
  3 <= GetRetryFromContext request ->
  ErrorHandler_step Duration serverUrl request e st =
    Reroute (rerouted (int.add (GetAttemptsFromContext request) 1) request)
      (emit [attempt_line request]
         (set_pool (MarkBackendStatus serverUrl false (pool (emit [failure_line serverUrl e] st)))
            (emit [failure_line serverUrl e] st))).
Proof.
  intros H. unfold ErrorHandler_step.
  apply Z.ltb_ge in H. rewrite H. reflexivity.
Qed.

(** C2: on a forwarding error with [retry < 3] the handler sleeps
    [backoff.Default.Duration(retry)], derives a context with
    [retry + 1] and calls [ServeHTTP] of the same backend's proxy on
    the same request under that context; the pool, cursor included, is
    as it was, so no peer is selected. *)
Theorem retry_same_backend (fuel : nat) (serverUrl : http.URL) (request : Request)
    (e : error) (st : State) :
  let retry := GetRetryFromContext request in
  int.min <= retry -> retry < 3 ->
  let request' := WithContext request (WithValue (Ctx request) RETRY (retry + 1)) in
  let st' := emit [Sleep (Duration retry)] (emit [failure_line serverUrl e] st) in
  ErrorHandler Duration RoundTrip fuel serverUrl request e st =
    ServeHTTP Duration RoundTrip fuel (Some serverUrl) request' st' /\
  GetRetryFromContext request' = retry + 1 /\
  trace st' = trace st ++ [failure_line serverUrl e; Sleep (Duration retry)] /\
  pool st' = pool st.
Proof.
  intros retry Hmin Hlt request' st'.
  assert (Hadd : int.add retry 1 = retry + 1).
  { apply int.add_small. unfold int.in_range, int.min, int.max in *. lia. }
  split; [|split; [|split]].
  - unfold ErrorHandler, ErrorHandler_body.
    rewrite ErrorHandler_step_retry by exact Hlt.
    fold retry. rewrite Hadd. reflexivity.
  - unfold GetRetryFromContext. cbn.
    rewrite decide_True by reflexivity. reflexivity.
  - cbn. now rewrite <- app_assoc.
  - reflexivity.
Qed.

(** C10: handling a forwarding error with [retry < 3] changes no
    liveness flag and no attempt counter: the handler goes on to the
    retry with the pool and the [attempt] of the context as they were,
    and a retry that succeeds ends the request with the pool
    unchanged; the pool is changed only by a handling with
    [retry >= 3]. *)
Theorem retry_leaves_pool (serverUrl : http.URL) (request : Request) (e : error)
    (st : State) :
  (GetRetryFromContext request < 3 ->
   exists request' st',
     ErrorHandler_step Duration serverUrl request e st = Retry request' st' /\
     pool st' = pool st /\
     GetAttemptsFromContext request' = GetAttemptsFromContext request /\
     forall (fuel : nat) (res : Response),
       RoundTrip (clock st') serverUrl (rewriteRequestURL request' serverUrl) = inl res ->
       exists st'',
         ErrorHandler Duration RoundTrip (S fuel) serverUrl request e st
           = Done (Forwarded res) st'' /\
         pool st'' = pool st) /\
  (pool (next_state (ErrorHandler_step Duration serverUrl request e st)) <> pool st ->
   3 <= GetRetryFromContext request).
Proof.
  split.
  - intros Hlt. do 2 eexists.
    split; [apply ErrorHandler_step_retry; exact Hlt|].
    split; [reflexivity|]. split.
    + unfold GetAttemptsFromContext. cbn.
      rewrite decide_False by discriminate. reflexivity.
    + intros fuel res Hrt. eexists. split.
      * unfold ErrorHandler, ErrorHandler_body.
        rewrite ErrorHandler_step_retry by exact Hlt.
        apply ServeHTTP_ok. exact Hrt.
      * reflexivity.
  - intros Hne. destruct (Z.lt_ge_cases (GetRetryFromContext request) 3) as [Hlt|Hge];
      [|exact Hge].
    rewrite ErrorHandler_step_retry in Hne by exact Hlt.
    now contradiction Hne.
Qed.

(** The outbound request of the [n]-th retry against [target]: each
    retry passes the previous outbound request through the director
    again, under the context with the next [RETRY]. *)
Fixpoint outbound (target : http.URL) (request : Request) (n : nat) : Request :=
  match n with
  | O => rewriteRequestURL request target
  | S k =>
      rewriteRequestURL (retried (Z.of_nat n) (outbound target request k)) target
  end.

Lemma GetRetryFromContext_retried (n : Z) (request : Request) :
  GetRetryFromContext (retried n request) = n.
Proof.
  unfold GetRetryFromContext. cbn. now rewrite decide_True by reflexivity.
Qed.

Lemma GetAttemptsFromContext_retried (n : Z) (request : Request) :
  GetAttemptsFromContext (retried n request) = GetAttemptsFromContext request.
Proof.
  unfold GetAttemptsFromContext. cbn. now rewrite decide_False by discriminate.
Qed.

Lemma GetAttemptsFromContext_rerouted (n : Z) (request : Request) :
  GetAttemptsFromContext (rerouted n request) = n.
Proof.
  unfold GetAttemptsFromContext. cbn. now rewrite decide_True by reflexivity.
Qed.

Lemma GetRetryFromContext_outbound (target : http.URL) (request : Request) (n : nat) :
  GetRetryFromContext (outbound target request n) =
    match n with O => GetRetryFromContext request | S _ => Z.of_nat n end.
Proof.
  destruct n as [|n]; [reflexivity|].
  cbn [outbound].
  change (GetRetryFromContext (retried (Z.of_nat (S n)) (outbound target request n))
          = Z.of_nat (S n)).
  apply GetRetryFromContext_retried.
Qed.

Lemma GetAttemptsFromContext_outbound (target : http.URL) (request : Request) (n : nat) :
  GetAttemptsFromContext (outbound target request n) = GetAttemptsFromContext request.
Proof.
  induction n as [|n IH]; [reflexivity|].
  cbn [outbound].
  change (GetAttemptsFromContext (retried (Z.of_nat (S n)) (outbound target request n))
          = GetAttemptsFromContext request).
  now rewrite GetAttemptsFromContext_retried.
Qed.

(** One failed forward with retries left: the next forward goes to
    the same target. *)
Lemma ServeHTTP_retry (fuel : nat) (t : http.URL) (request : Request) (st : State)
    (e : error) :
  RoundTrip (clock st) t (rewriteRequestURL request t) = inr e ->
  GetRetryFromContext request < 3 ->
  ServeHTTP Duration RoundTrip (S fuel) (Some t) request st =
    ServeHTTP Duration RoundTrip fuel (Some t)
      (retried (int.add (GetRetryFromContext request) 1) (rewriteRequestURL request t))
      {| pool := pool st;
         trace := trace st ++ [Forward t (rewriteRequestURL request t);
                               failure_line t e;
                               Sleep (Duration (GetRetryFromContext request))];
         clock := S (clock st) |}.
Proof.
  intros Hrt Hlt. rewrite (ServeHTTP_error _ _ _ _ _ Hrt).
  unfold ErrorHandler, ErrorHandler_body.
  rewrite ErrorHandler_step_retry by exact Hlt.
  f_equal. unfold emit, tick. cbn. f_equal. now rewrite <- !app_assoc.
Qed.

(** One failed forward with no retry left: the target is marked and
    the request goes back to [Lbalancer]. *)
Lemma ServeHTTP_reroute (fuel : nat) (t : http.URL) (request : Request) (st : State)
    (e : error) :
  RoundTrip (clock st) t (rewriteRequestURL request t) = inr e ->
  3 <= GetRetryFromContext request ->
  ServeHTTP Duration RoundTrip (S fuel) (Some t) request st =
    Lbalancer Duration RoundTrip fuel
      (rerouted (int.add (GetAttemptsFromContext request) 1) (rewriteRequestURL request t))
      {| pool := MarkBackendStatus t false (pool st);
         trace := trace st ++ [Forward t (rewriteRequestURL request t);
                               failure_line t e;
                               attempt_line (rewriteRequestURL request t)];
         clock := S (clock st) |}.
Proof.
  intros Hrt Hge. rewrite (ServeHTTP_error _ _ _ _ _ Hrt).
  unfold ErrorHandler, ErrorHandler_body.
  rewrite ErrorHandler_step_reroute by exact Hge.
  unfold Lbalancer. f_equal. unfold emit, tick, set_pool. cbn. f_equal.
  now rewrite <- !app_assoc.
Qed.

(** C1, as amended: when the forwarding of one request to backend
    [A] fails four times in a row (the first forward and each of its
    three retries), the router sleeps exactly three times, for the
    backoff of retry 0, 1 and 2, then marks [A] not alive, derives a
    context with [attempt + 1] and re-enters [Lbalancer]; when
    [nextPeer] then selects a backend [B] and [B] answers, the client
    gets [B]'s response.  The backend selected is alive, [A] is
    reported not alive, and in a pool where no two backends share an
    address the backend selected is not at [A]'s address. *)
Theorem four_failures_then_reroute (fuel : nat) (A B : http.URL) (request : Request)
    (st : State) (failing : nat -> error) (b : Backend) (s' : ServerPool)
    (res : Response) :
  GetRetryFromContext request = 0 ->
  int.in_range (GetAttemptsFromContext request + 1) ->
  (forall (k : nat) (outreq : Request),
     (k < 4)%nat -> RoundTrip (k + clock st) A outreq = inr (failing k)) ->
  NextPeer (MarkBackendStatus A false (pool st)) = (Some b, s') ->
  ReverseProxy b = Some B ->
  (forall outreq : Request, RoundTrip (4 + clock st) B outreq = inl res) ->
  let request' :=
    rerouted (GetAttemptsFromContext request + 1) (outbound A request 3) in
  let before_reroute :=
    [Forward A (outbound A request 0); failure_line A (failing 0%nat); Sleep (Duration 0);
     Forward A (outbound A request 1); failure_line A (failing 1%nat); Sleep (Duration 1);
     Forward A (outbound A request 2); failure_line A (failing 2%nat); Sleep (Duration 2);
     Forward A (outbound A request 3); failure_line A (failing 3%nat);
     attempt_line (outbound A request 3)] in
  ServeHTTP Duration RoundTrip (4 + fuel) (Some A) request st =
    Lbalancer Duration RoundTrip fuel request'
      {| pool := MarkBackendStatus A false (pool st);
         trace := trace st ++ before_reroute;
         clock := (4 + clock st)%nat |} /\
  ServeHTTP Duration RoundTrip (5 + fuel) (Some A) request st =
    Done (Forwarded res)
      {| pool := s';
         trace := trace st ++ before_reroute ++ [Forward B (rewriteRequestURL request' B)];
         clock := (5 + clock st)%nat |} /\
  sleeps before_reroute = [Duration 0; Duration 1; Duration 2] /\
  GetAttemptsFromContext request' = GetAttemptsFromContext request + 1 /\
  IsBackendAlive A s' = false /\
  Alive b = true /\
  (NoDup (URL <$> backends (pool st)) -> URL b <> Some A).
Proof.
  intros Hretry Hatt Hfail Hpeer Hproxy Hok request' before_reroute.
  assert (Hreroute : forall fuel' : nat,
    ServeHTTP Duration RoundTrip (4 + fuel') (Some A) request st =
      Lbalancer Duration RoundTrip fuel' request'
        {| pool := MarkBackendStatus A false (pool st);
           trace := trace st ++ before_reroute;
           clock := (4 + clock st)%nat |}).
  { intros fuel'. cbn [Nat.add].
    rewrite (ServeHTTP_retry _ _ _ _ (failing 0%nat));
      [| apply (Hfail 0%nat); lia | rewrite Hretry; lia].
    rewrite Hretry. change (int.add 0 1) with 1.
    rewrite (ServeHTTP_retry _ _ _ _ (failing 1%nat));
      [| apply (Hfail 1%nat); lia | rewrite GetRetryFromContext_retried; lia].
    rewrite GetRetryFromContext_retried. change (int.add 1 1) with 2.
    rewrite (ServeHTTP_retry _ _ _ _ (failing 2%nat));
      [| apply (Hfail 2%nat); lia | rewrite GetRetryFromContext_retried; lia].
    rewrite GetRetryFromContext_retried. change (int.add 2 1) with 3.
    rewrite (ServeHTTP_reroute _ _ _ _ (failing 3%nat));
      [| apply (Hfail 3%nat); lia | rewrite GetRetryFromContext_retried; lia].
    change (rewriteRequestURL (retried 3 (rewriteRequestURL (retried 2
              (rewriteRequestURL (retried 1 (rewriteRequestURL request A)) A)) A)) A)
      with (outbound A request 3).
    change (GetAttemptsFromContext (retried 3 (rewriteRequestURL (retried 2
              (rewriteRequestURL (retried 1 (rewriteRequestURL request A)) A)) A)))
      with (GetAttemptsFromContext (outbound A request 3)).
    rewrite GetAttemptsFromContext_outbound, (int.add_small _ _ Hatt).
    f_equal. cbn [pool trace clock]. f_equal.
    rewrite <- !app_assoc. reflexivity. }
  split; [apply Hreroute|].
  split; [|split; [reflexivity|split; [apply GetAttemptsFromContext_rerouted|]]].
  - change (5 + fuel)%nat with (4 + S fuel)%nat. rewrite Hreroute.
    unfold Lbalancer, Lbalancer_body. cbn [pool]. rewrite Hpeer, Hproxy.
    rewrite (ServeHTTP_ok _ _ _ _ res) by apply Hok.
    f_equal. unfold tick, emit, set_pool. cbn. f_equal.
    now rewrite <- !app_assoc.
  - destruct (NextPeer_alive _ _ _ Hpeer) as (Halive & Hin & Hbs).
    split; [|split; [exact Halive|]].
    + pose proof (IsBackendAlive_marked A (pool st)) as Hm.
      unfold IsBackendAlive in *. now rewrite Hbs.
    + intros Hnd Hurl. cbn [MarkBackendStatus backends] in Hin.
      rewrite (mark_dead _ _ _ Hnd Hin Hurl) in Halive. discriminate.
Qed.

End RequestFacts.

(** *** A pool of two backends *)

Definition example_A : http.URL := mkURL "http" "a:8081" "" "".
Definition example_B : http.URL := mkURL "http" "b:8082" "" "".

Definition example_backend (u : http.URL) : Backend :=
  {| URL := Some u; Alive := true; ReverseProxy := Some u |}.

(** The state right after [nextPeer] has selected [A] for a request. *)
Definition example_state : State :=
  {| pool := {| backends := [example_backend example_A; example_backend example_B];
                cursor := 2 |};
     trace := []; clock := 0 |}.

Definition example_request : Request :=
  {| Method := "GET"; RequestURI := "/x"; URL_ := mkURL "" "" "/x" "";
     RemoteAddr := "192.0.2.7:51000"; ReqHeader := ∅; Ctx := Background |}.

(** 100ms doubled per retry, in nanoseconds. *)
Definition example_Duration (retry : Z) : Z := 100000000 * 2 ^ retry.

Definition example_refused : error := Other "connection refused".

Definition example_answer (t : http.URL) : Response :=
  {| StatusCode := 200; RespHeader := ∅; Body := Host t |}.

(** [A] refuses the first [failures] round trips of the run; every
    other round trip is answered. *)
Definition example_RoundTrip (failures : nat) (n : nat) (t : http.URL) (outreq : Request)
    : Response + error :=
  if bool_decide (t = example_A) && (n <? failures)%nat
  then inr example_refused
  else inl (example_answer t).

Lemma example_fails_four_times (k : nat) (outreq : Request) :
  (k < 4)%nat ->
  example_RoundTrip 4 (k + clock example_state) example_A outreq = inr example_refused.
Proof.
  intros Hk. unfold example_RoundTrip.
  rewrite bool_decide_eq_true_2 by reflexivity.
  apply Nat.ltb_lt in Hk. cbn [clock example_state]. rewrite Nat.add_0_r, Hk.
  reflexivity.
Qed.

Lemma four_failures_then_reroute_witness :
  (exists st',
     ServeHTTP example_Duration (example_RoundTrip 4) 5 (Some example_A) example_request
       example_state = Done (Forwarded (example_answer example_B)) st' /\
     sleeps (trace st') = [100000000; 200000000; 400000000] /\
     backends (pool st') =
       [SetAlive false (example_backend example_A); example_backend example_B]) /\
  URL (example_backend example_B) <> Some example_A.
Proof.
  pose proof (four_failures_then_reroute example_Duration (example_RoundTrip 4)
       0 example_A example_B example_request example_state (fun _ => example_refused)
       (example_backend example_B)
       {| backends := [SetAlive false (example_backend example_A);
                       example_backend example_B];
          cursor := 3 |}
       (example_answer example_B)
       eq_refl
       ltac:(vm_compute; split; discriminate)
       example_fails_four_times
       eq_refl eq_refl
       (fun _ => eq_refl)) as (_ & Hdone & _ & _ & _ & _ & Hother).
  split.
  - eexists. split; [exact Hdone|]. split; reflexivity.
  - apply Hother. cbn. apply NoDup_cons. split.
    + rewrite list_elem_of_singleton. discriminate.
    + apply NoDup_singleton.
Defined.

Lemma retry_same_backend_witness :
  ErrorHandler example_Duration (example_RoundTrip 0) 1 example_A example_request
    example_refused example_state
  = Done (Forwarded (example_answer example_A))
      {| pool := pool example_state;
         trace := [failure_line example_A example_refused; Sleep 100000000;
                   Forward example_A
                     (rewriteRequestURL (retried 1 example_request) example_A)];
         clock := 1 |}.
Proof.
  rewrite (proj1 (retry_same_backend example_Duration (example_RoundTrip 0) 1 example_A
                    example_request example_refused example_state
                    ltac:(vm_compute; discriminate) ltac:(reflexivity))).
  reflexivity.
Defined.

Lemma retry_leaves_pool_witness :
  (exists request' st',
     ErrorHandler_step example_Duration example_A example_request example_refused
       example_state = Retry request' st' /\
     pool st' = pool example_state /\
     GetAttemptsFromContext request' = GetAttemptsFromContext example_request) /\
  3 <= GetRetryFromContext (retried 3 example_request).
Proof.
  split.
  - destruct (proj1 (retry_leaves_pool example_Duration (example_RoundTrip 0) example_A
                       example_request example_refused example_state) ltac:(reflexivity))
      as (request' & st' & Hstep & Hpool & Hatt & _).
    exists request', st'. auto.
  - apply (proj2 (retry_leaves_pool example_Duration (example_RoundTrip 0) example_A
                    (retried 3 example_request) example_refused example_state)).
    vm_compute. discriminate.
Defined.

(** C1 as stated fails: after three failed forwards to [A] the router
    has slept three times and forwards to [A] a fourth time; [A]
    answers, the client gets [A]'s response, and [A] is still alive:
    nothing was marked and nothing rerouted. *)
Lemma three_failures_counterexample :
  exists st',
    ServeHTTP example_Duration (example_RoundTrip 3) 5 (Some example_A) example_request
      example_state = Done (Forwarded (example_answer example_A)) st' /\
    sleeps (trace st') = [100000000; 200000000; 400000000] /\
    pool st' = pool example_state /\
    IsBackendAlive example_A (pool st') = true.
Proof. eexists. repeat split; reflexivity. Qed.

(** *** Startup *)

Section StartFacts.

Variable url_Parse : string -> http.URL + error.
Variable NewSingleHostReverseProxy_nil_returns : bool.

Lemma StartLB_token_length (tok : string) (acc : Startup) (s' : ServerPool)
    (logged' : list Entry) :
  StartLB_token url_Parse NewSingleHostReverseProxy_nil_returns tok acc
    = Configured s' logged' ->
  exists s logged,
    acc = Configured s logged /\ length (backends s') = S (length (backends s)).
Proof.
  destruct acc as [msg|logged|s logged]; try discriminate.
  unfold StartLB_token.
  destruct (url_Parse tok) as [u|err];
    [|destruct NewSingleHostReverseProxy_nil_returns; [|discriminate]];
    intros [= <- _]; exists s, logged; (split; [reflexivity|]);
    cbn [AddBackend backends]; rewrite length_app; cbn [length]; lia.
Qed.

Lemma StartLB_tokens_length (tokens : list string) (acc : Startup) (s' : ServerPool)
    (logged' : list Entry) :
  foldl (fun acc tok =>
           StartLB_token url_Parse NewSingleHostReverseProxy_nil_returns tok acc)
        acc tokens = Configured s' logged' ->
  exists s logged,
    acc = Configured s logged /\
    length (backends s') = (length (backends s) + length tokens)%nat.
Proof.
  revert acc. induction tokens as [|tok tokens IH]; intros acc H.
  - cbn in H. subst acc. exists s', logged'. split; [reflexivity|]. cbn. lia.
  - cbn [foldl] in H. destruct (IH _ H) as (s1 & l1 & H1 & Hlen).
    destruct (StartLB_token_length _ _ _ _ H1) as (s & l & -> & Hlen1).
    exists s, l. split; [reflexivity|]. cbn [length]. lia.
Qed.

(** Whenever the loop of [StartLB] completes, it has added one
    backend per token of the list, parsable or not. *)
Lemma StartLB_one_backend_per_token (serverList : string) (s s' : ServerPool)
    (logged : list Entry) :
  StartLB url_Parse NewSingleHostReverseProxy_nil_returns serverList s
    = Configured s' logged ->
  length (backends s') = (length (backends s) + length (Split serverList ","))%nat.
Proof.
  unfold StartLB. destruct (String.length serverList =? 0)%nat; [discriminate|].
  intros H. destruct (StartLB_tokens_length _ _ _ _ H) as (s0 & l0 & [= <- _] & Hlen).
  exact Hlen.
Qed.

End StartFacts.

(** C7 at an input where it fails: the list [http://a:8081,:8082],
    whose second token does not parse.  The error is logged, and then
    the loop goes on with the nil URL: where the library's constructor
    accepts a nil target the token becomes a backend with no URL that
    counts as alive, and where it does not the startup panics before
    the third token is looked at. *)
Theorem malformed_backend_not_skipped :
  StartLB Gateway.example_Parse true "http://a:8081,:8082" {| backends := []; cursor := 0 |}
  = Configured
      {| backends := [example_backend example_A;
                      {| URL := None; Alive := true; ReverseProxy := None |}];
         cursor := 0 |}
      [LogInfo "Configured server: %s\n" [AURL (Some example_A)];
       LogError "%s" [AErr (Other "missing protocol scheme")];
       LogInfo "Configured server: %s\n" [AURL None]] /\
  StartLB Gateway.example_Parse false "http://a:8081,:8082,http://b:8082"
    {| backends := []; cursor := 0 |}
  = StartupPanic
      [LogInfo "Configured server: %s\n" [AURL (Some example_A)];
       LogError "%s" [AErr (Other "missing protocol scheme")]].
Proof. split; reflexivity. Qed.

End LB.

(** ** Further facts about the gateway handlers *)

Module GatewayFacts.
Import strings http Gateway.

(** *** More on the scans *)

Lemma HasPrefix_app_l (a r p : string) :
  HasPrefix a p = true -> HasPrefix (a +:+ r) p = true.
Proof.
  revert a. induction p as [|c p IH]; intros a H; [reflexivity|].
  destruct a as [|d a]; [discriminate|].
  simpl in *. destruct (Ascii.eqb d c); [now apply IH | discriminate].
Qed.

(** [before_first] returns a prefix of its argument. *)
Lemma before_first_prefix (sep s : string) :
  exists r, s = before_first sep s +:+ r.
Proof.
  induction s as [|c s [r IH]].
  - exists EmptyString. reflexivity.
  - cbn [before_first]. destruct (HasPrefix (String c s) sep).
    + exists (String c s). reflexivity.
    + exists r. change (String c s = String c (before_first sep s +:+ r)).
      congruence.
Qed.

(** The text before the first separator holds no separator. *)
Lemma before_first_free (sep s : string) :
  sep <> EmptyString -> Contains (before_first sep s) sep = false.
Proof.
  intros Hsep. induction s as [|c s IH].
  - destruct sep; [congruence | reflexivity].
  - cbn [before_first]. destruct (HasPrefix (String c s) sep) eqn:E.
    + destruct sep; [congruence | reflexivity].
    + cbn [Contains]. rewrite IH, orb_false_r.
      destruct (HasPrefix (String c (before_first sep s)) sep) eqn:E'; [|reflexivity].
      destruct (before_first_prefix sep s) as [r Hr].
      apply (HasPrefix_app_l _ r) in E'.
      change (HasPrefix (String c (before_first sep s +:+ r)) sep = true) in E'.
      rewrite <- Hr in E'. congruence.
Qed.

(** Replacing the loopback notation at the head of an address. *)
Lemma Replace_loopback_head (rest : string) :
  Replace ("[::1]" +:+ rest) "[::1]" "localhost" (-1)
  = "localhost" +:+ Replace rest "[::1]" "localhost" (-1).
Proof. reflexivity. Qed.

(** *** The client address *)

(** The address [extractIpAddr] works on: the first [", "]-separated
    entry of [X-Forwarded-For] when the header is set, else the remote
    address. *)
Definition picked (req : Request) : string :=
  let fwd := Get (ReqHeader req) "X-Forwarded-For" in
  if String.eqb fwd "" then RemoteAddr req else before_first ", " fwd.

Lemma extractIpAddr_picked (req : Request) :
  extractIpAddr req
  = Some (before_first ":" (Replace (picked req) "[::1]" "localhost" (-1))).
Proof.
  unfold extractIpAddr, picked.
  set (fwd := Get (ReqHeader req) "X-Forwarded-For").
  assert (Hcut : forall ip : string,
    (if Contains ip "[::1]"
     then Split (Replace ip "[::1]" "localhost" (-1)) ":" !! 0%nat
     else Split ip ":" !! 0%nat)
    = Some (before_first ":" (Replace ip "[::1]" "localhost" (-1)))).
  { intros ip. destruct (Contains ip "[::1]") eqn:E.
    - now apply Split_head.
    - rewrite (Replace_absent _ _ _ _ E). now apply Split_head. }
  destruct (String.eqb fwd "") eqn:Efwd; cbn [negb].
  - apply Hcut.
  - rewrite picked_address. apply Hcut.
Qed.

(** X1: whatever the request, [extractIpAddr] returns, and the address
    it returns holds no colon. *)
Theorem extractIpAddr_has_no_colon (req : Request) :
  exists ip, extractIpAddr req = Some ip /\ Contains ip ":" = false.
Proof.
  eexists. split; [apply extractIpAddr_picked|].
  now apply before_first_free.
Qed.

(** X2: a request with a non-empty [X-Forwarded-For] is given the
    address its header names; its remote address plays no part. *)
Theorem forwarded_for_overrides_remote (req1 req2 : Request) :
  Get (ReqHeader req1) "X-Forwarded-For" <> "" ->
  Get (ReqHeader req1) "X-Forwarded-For" = Get (ReqHeader req2) "X-Forwarded-For" ->
  extractIpAddr req1 = extractIpAddr req2.
Proof.
  intros Hne Heq. rewrite !extractIpAddr_picked. unfold picked.
  rewrite <- Heq. apply String.eqb_neq in Hne. now rewrite Hne.
Qed.

Lemma forwarded_for_overrides_remote_witness :
  extractIpAddr
    {| Method := "GET"; RequestURI := "/"; URL_ := mkURL "" "" "/" "";
       RemoteAddr := "192.0.2.7:51000";
       ReqHeader := {["X-Forwarded-For" := ["10.0.0.1, 10.0.0.2"]]}; Ctx := [] |}
  = extractIpAddr
      {| Method := "GET"; RequestURI := "/"; URL_ := mkURL "" "" "/" "";
         RemoteAddr := "198.51.100.9:4242";
         ReqHeader := {["X-Forwarded-For" := ["10.0.0.1, 10.0.0.2"]]}; Ctx := [] |}.
Proof.
  apply forwarded_for_overrides_remote; [discriminate | reflexivity].
Defined.

(** X3: an address of the form [host:port], with no colon in the host
    and no loopback notation, is cut down to its host. *)
Theorem extractIpAddr_strips_port (req : Request) (host port : string) :
  picked req = host +:+ ":" +:+ port ->
  Contains host ":" = false ->
  Contains (picked req) "[::1]" = false ->
  extractIpAddr req = Some host.
Proof.
  intros Hp Hhost Hloop. rewrite extractIpAddr_picked.
  rewrite (Replace_absent _ _ _ _ Hloop), Hp.
  f_equal. now apply before_first_app.
Qed.

Lemma extractIpAddr_strips_port_witness :
  extractIpAddr (example_request "/" []) = Some "192.0.2.7"%string.
Proof.
  apply (extractIpAddr_strips_port (example_request "/" []) "192.0.2.7" "51000");
    reflexivity.
Defined.

(** X4: the IPv6 loopback address, alone or followed by a port, is
    reported as [localhost]. *)
Theorem extractIpAddr_loopback (req : Request) (rest : string) :
  picked req = "[::1]" +:+ rest ->
  rest = "" \/ HasPrefix rest ":" = true ->
  extractIpAddr req = Some "localhost"%string.
Proof.
  intros Hp Hrest. rewrite extractIpAddr_picked, Hp, Replace_loopback_head.
  f_equal. destruct Hrest as [-> | Hcolon].
  - reflexivity.
  - destruct (HasPrefix_inv _ _ Hcolon) as [port ->].
    change (Replace (":" +:+ port) "[::1]" "localhost" (-1))
      with (":" +:+ Replace port "[::1]" "localhost" (-1)).
    now apply before_first_app.
Qed.

Lemma extractIpAddr_loopback_witness :
  extractIpAddr
    {| Method := "GET"; RequestURI := "/"; URL_ := mkURL "" "" "/" "";
       RemoteAddr := "[::1]:51000"; ReqHeader := ∅; Ctx := [] |}
  = Some "localhost"%string.
Proof.
  apply (extractIpAddr_loopback _ ":51000"); [reflexivity | right; reflexivity].
Defined.

(** *** The authorization checks *)

Section CheckRange.

Variable GetKEY : string -> string -> string * option error.
Variable jwt_Verify : forall (token key : string) (now : Z), option error.

(** X5: the JWT check never indexes out of range; it returns nil or
    one of its three errors, and it logs exactly the error it returns
    (nothing when it returns nil). *)
Theorem checkJWT_returns (now : Z) (req : Request) (key : string) :
  exists r,
    checkJWTSecretKeyFromRequest jwt_Verify now req key
      = Some (match r with
              | Some e => [LogError "proxy: %v" [AErr e]]
              | None => []
              end, r) /\
    (r = None \/ r = Some ErrBearerTokenFormat \/
     r = Some ErrTokenExpValidation \/ r = Some ErrTokenHMACValidation).
Proof using jwt_Verify.
  unfold checkJWTSecretKeyFromRequest.
  destruct (HasPrefix (Get (ReqHeader req) "Authorization") "Bearer ") eqn:E;
    cbn [negb].
  - destruct (HasPrefix_inv _ _ E) as [rest ->].
    rewrite bearer_token. cbn [mbind option_bind].
    destruct (ErrorIs _ jwt_ErrExpValidation);
      [|destruct (ErrorIs _ jwt_ErrHMACVerification)].
    + exists (Some ErrTokenExpValidation). split; [reflexivity | auto].
    + exists (Some ErrTokenHMACValidation). split; [reflexivity | auto].
    + exists None. split; [reflexivity | auto].
  - exists (Some ErrBearerTokenFormat). split; [reflexivity | auto].
Qed.

(** X6: the JWT check verifies the text between the first and the
    second space of the header; whatever follows a second space is not
    looked at. *)
Theorem checkJWT_ignores_trailing (now : Z) (req1 req2 : Request) (key token junk : string) :
  Contains token " " = false ->
  Get (ReqHeader req1) "Authorization" = "Bearer " +:+ token +:+ " " +:+ junk ->
  Get (ReqHeader req2) "Authorization" = "Bearer " +:+ token ->
  checkJWTSecretKeyFromRequest jwt_Verify now req1 key
  = checkJWTSecretKeyFromRequest jwt_Verify now req2 key.
Proof.
  intros Hsp H1 H2. unfold checkJWTSecretKeyFromRequest.
  rewrite H1, H2, !HasPrefix_app, !bearer_token.
  rewrite (before_first_app " " "" token junk Hsp).
  now rewrite (before_first_no_sep _ _ Hsp).
Qed.

(** X7: the API-key check passes exactly when the header equals the
    value the secret store returned, whether or not the lookup
    failed; every other request gets the invalid-key error. *)
Theorem checkAPIKEY_passes_iff (req : Request) (engine key : string) :
  (snd (checkAPIKEYSecretKeyFromRequest GetKEY req engine key) = None <->
   fst (GetKEY engine key) = Get (ReqHeader req) "X-API-KEY") /\
  (snd (checkAPIKEYSecretKeyFromRequest GetKEY req engine key) = None \/
   snd (checkAPIKEYSecretKeyFromRequest GetKEY req engine key)
     = Some (NewError "Invalid API KEY")).
Proof using GetKEY.
  unfold checkAPIKEYSecretKeyFromRequest.
  destruct (GetKEY engine key) as [apikey err]. cbn [fst].
  destruct (String.eqb apikey (Get (ReqHeader req) "X-API-KEY")) eqn:E; cbn [snd].
  - apply String.eqb_eq in E. split; [split; auto | left; reflexivity].
  - apply String.eqb_neq in E. split; [|right; reflexivity].
    split; [discriminate | contradiction].
Qed.

End CheckRange.

Lemma checkJWT_ignores_trailing_witness :
  checkJWTSecretKeyFromRequest example_Verify 0
    (example_request "/" [("Authorization", ["Bearer good.token.sig and more"])]) "k"
  = checkJWTSecretKeyFromRequest example_Verify 0
      (example_request "/" [("Authorization", ["Bearer good.token.sig"])]) "k".
Proof.
  apply (checkJWT_ignores_trailing example_Verify 0 _ _ "k" "good.token.sig" "and more");
    reflexivity.
Defined.

(** X8: the hook replaces whatever [X-Proxy] values the upstream sent
    by the single value [Ngonx], leaves every other header entry as it
    was, and running it twice is the same as running it once. *)
Theorem modifyResponse_overwrites (err : option error) (resp : Response) :
  RespHeader (modifyResponse err resp).1 !! "X-Proxy" = Some ["Ngonx"] /\
  delete "X-Proxy" (RespHeader (modifyResponse err resp).1)
    = delete "X-Proxy" (RespHeader resp) /\
  modifyResponse err (modifyResponse err resp).1 = modifyResponse err resp.
Proof.
  assert (Hfst : (modifyResponse err resp).1 =
    {| StatusCode := StatusCode resp;
       RespHeader := <["X-Proxy" := ["Ngonx"]]> (RespHeader resp);
       Body := Body resp |}) by (destruct err; reflexivity).
  rewrite Hfst. cbn [RespHeader]. split; [|split].
  - apply lookup_insert_eq.
  - apply delete_insert_eq.
  - destruct err; unfold modifyResponse, Set_; cbn;
      change (CanonicalMIMEHeaderKey "X-Proxy") with "X-Proxy";
      now rewrite insert_insert_eq.
Qed.

Lemma checkAPIKEY_passes_iff_witness :
  snd (checkAPIKEYSecretKeyFromRequest example_GetKEY
         (example_request "/" [("X-Api-Key", ["s3cret"])]) "engine" "key") = None.
Proof.
  apply (proj2 (proj1 (checkAPIKEY_passes_iff example_GetKEY
           (example_request "/" [("X-Api-Key", ["s3cret"])]) "engine" "key"))).
  reflexivity.
Defined.

(** *** Configuration and serving *)

Section Configuration.

Variable GetKEY : string -> string -> string * option error.
Variable jwt_Verify : forall (token key : string) (now : Z), option error.
Variable url_Parse : string -> URL + error.
Variable NewSingleHostReverseProxy_nil_returns : bool.
Variable RoundTrip : Request -> Response + error.

(** The target [ProxyGateway] computes for an endpoint; nil when the
    URL does not parse. *)
Definition target_of (HostURI_ : string) (endpoint : Endpoint) : option URL :=
  match url_Parse (HostURI_ +:+ PathEndpoint endpoint) with
  | inl u => Some u
  | inr _ => None
  end.

(** The handle [ProxyGateway] leaves behind for an endpoint. *)
Definition handle_of (HostURI_ engine key securityType : string) (endpoint : Endpoint)
    : ReverseProxy :=
  let target := target_of HostURI_ endpoint in
  if PathProtected endpoint
  then {| Director_ :=
            director_protected (director_default target) target securityType engine key;
          ModifyResponse := None;
          ErrorHandler := ErrorHandler_gateway |}
  else {| Director_ := director_plain (director_default target) target;
          ModifyResponse := None;
          ErrorHandler := ErrorHandler_nil |}.

Lemma update_proxy_last (f : ReverseProxy -> ReverseProxy) (h : list ReverseProxy)
    (p : ReverseProxy) (m : list (string * nat)) (l : list Entry) (ms : list Metric) :
  update_proxy f {| heap := h ++ [p]; proxy := Some (length h); mux := m; log := l;
                    metrics := ms |}
  = Some {| heap := h ++ [f p]; proxy := Some (length h); mux := m; log := l;
            metrics := ms |}.
Proof.
  unfold update_proxy, set_heap. cbn [proxy heap mux log metrics].
  rewrite (list_lookup_middle h [] p (length h) eq_refl).
  rewrite insert_app_r_alt by lia. now rewrite Nat.sub_diag.
Qed.

Lemma ProxyGateway_endpoint_built (HostURI_ engine key securityType : string)
    (endpoint : Endpoint) (st st' : State) :
  ProxyGateway_endpoint url_Parse NewSingleHostReverseProxy_nil_returns
    HostURI_ engine key securityType endpoint st = Some st' ->
  heap st' = heap st ++ [handle_of HostURI_ engine key securityType endpoint] /\
  proxy st' = Some (length (heap st)) /\
  mux st' = mux st ++ [(PathToProxy endpoint, length (heap st))] /\
  metrics st' = metrics st.
Proof.
  unfold ProxyGateway_endpoint, handle_of, target_of, NewSingleHostReverseProxy.
  destruct st as [h pr m l ms].
  destruct (url_Parse (HostURI_ +:+ PathEndpoint endpoint)) as [u|err];
    destruct (PathProtected endpoint);
    try destruct NewSingleHostReverseProxy_nil_returns; try discriminate;
    unfold assign_new, add_log; cbn [heap proxy mux log metrics mbind option_bind];
    rewrite (list_lookup_middle h [] _ (length h) eq_refl);
    rewrite !update_proxy_last; cbn [proxy];
    unfold Handle; cbn [heap proxy mux log metrics];
    (destruct (_ || _); [discriminate|]);
    intros [= <-]; cbn [heap proxy mux log metrics]; auto.
Qed.

Lemma ProxyGateway_fold_None (HostURI_ engine key securityType : string)
    (eps : list Endpoint) :
  foldl (fun st endpoint =>
           st ≫= ProxyGateway_endpoint url_Parse NewSingleHostReverseProxy_nil_returns
                   HostURI_ engine key securityType endpoint)
        None eps = None.
Proof. induction eps as [|ep eps IH]; [reflexivity | exact IH]. Qed.

Lemma ProxyGateway_fold_built (HostURI_ engine key securityType : string)
    (eps : list Endpoint) (st st' : State) :
  foldl (fun st endpoint =>
           st ≫= ProxyGateway_endpoint url_Parse NewSingleHostReverseProxy_nil_returns
                   HostURI_ engine key securityType endpoint)
        (Some st) eps = Some st' ->
  heap st' = heap st ++ (handle_of HostURI_ engine key securityType <$> eps) /\
  proxy st' = match eps with
              | [] => proxy st
              | _ => Some (length (heap st) + length eps - 1)%nat
              end /\
  mux st' = mux st ++ zip (PathToProxy <$> eps) (seq (length (heap st)) (length eps)) /\
  metrics st' = metrics st.
Proof.
  revert st. induction eps as [|ep eps IH]; intros st H.
  - cbn in H. injection H as <-. cbn. now rewrite !app_nil_r.
  - cbn [foldl mbind option_bind] in H.
    destruct (ProxyGateway_endpoint _ _ _ _ _ _ ep st) as [st1|] eqn:E;
      [|rewrite ProxyGateway_fold_None in H; discriminate].
    apply ProxyGateway_endpoint_built in E. destruct E as (Hh & Hp & Hm & Hms).
    destruct (IH _ H) as (Hh' & Hp' & Hm' & Hms').
    rewrite Hh, length_app in *. cbn [length] in *.
    rewrite Hh', Hm', Hms', Hm, Hms. rewrite <- !app_assoc. cbn.
    replace (length (heap st) + 1)%nat with (S (length (heap st))) by lia.
    split; [reflexivity|]. split; [|split; reflexivity].
    rewrite Hp'. destruct eps; [rewrite Hp|]; f_equal; cbn [length]; lia.
Qed.

(** The two counter increments [metricRegister] sends for a request
    bound for [target]. *)
Definition counted (req : Request) (target : URL) : list Metric :=
  match extractIpAddr req with
  | Some ip =>
      [CountersByEndpoint_Inc (RequestURI req) target ip (Method req);
       TotalRequests_Inc (RequestURI req) "proxy"]
  | None => []
  end.

Lemma metricRegister_counted (req : Request) (target : URL) (st : State) :
  metricRegister (rewriteRequestURL req target) (Some target) st
  = Some (add_metrics (counted req target) st).
Proof.
  unfold metricRegister, counted.
  change (extractIpAddr (rewriteRequestURL req target)) with (extractIpAddr req).
  rewrite extractIpAddr_picked. reflexivity.
Qed.

(** The check a protected director runs for a security type. *)
Definition check_of (securityType engine key : string) (now : Z) (req : Request)
    : option (list Entry * option error) :=
  if String.eqb securityType "jwt"
  then checkJWTSecretKeyFromRequest jwt_Verify now req key
  else if String.eqb securityType "apikey"
  then Some (checkAPIKEYSecretKeyFromRequest GetKEY req engine key)
  else None.

Lemma checkJWT_defined (now : Z) (req : Request) (key : string) :
  exists lines err,
    checkJWTSecretKeyFromRequest jwt_Verify now req key = Some (lines, err).
Proof.
  unfold checkJWTSecretKeyFromRequest.
  destruct (HasPrefix (Get (ReqHeader req) "Authorization") "Bearer ") eqn:E;
    cbn [negb]; [|eauto].
  destruct (HasPrefix_inv _ _ E) as [rest ->].
  rewrite bearer_token. cbn [mbind option_bind].
  destruct (ErrorIs _ jwt_ErrExpValidation);
    [|destruct (ErrorIs _ jwt_ErrHMACVerification)]; eauto.
Qed.

Lemma check_of_defined (securityType engine key : string) (now : Z) (req : Request) :
  securityType = "jwt" \/ securityType = "apikey" ->
  exists lines err, check_of securityType engine key now req = Some (lines, err).
Proof.
  unfold check_of. intros [-> | ->]; cbn [String.eqb Ascii.eqb Bool.eqb].
  - apply checkJWT_defined.
  - destruct (checkAPIKEYSecretKeyFromRequest GetKEY req engine key) as [lines err].
    eauto.
Qed.

(** A run of the director of a protected endpoint that makes a
    check. *)
Lemma run_protected (target : URL) (securityType engine key : string) (now : Z)
    (req : Request) (st : State) (j : nat) (pj : ReverseProxy) (lines : list Entry)
    (err : option error) :
  check_of securityType engine key now req = Some (lines, err) ->
  proxy st = Some j -> heap st !! j = Some pj ->
  run_Director GetKEY jwt_Verify
    (director_protected (director_default (Some target)) (Some target)
       securityType engine key) now req st
  = Some (rewriteRequestURL req target,
          {| heap := <[j := set_ModifyResponse (Some (modifyResponse err)) pj]> (heap st);
             proxy := Some j; mux := mux st; log := log st ++ lines;
             metrics := metrics st ++ counted req target |}).
Proof.
  intros Hc Hj Hpj. cbn [run_Director]. rewrite metricRegister_counted.
  unfold check_of in Hc.
  change (checkJWTSecretKeyFromRequest jwt_Verify now (rewriteRequestURL req target) key)
    with (checkJWTSecretKeyFromRequest jwt_Verify now req key).
  change (checkAPIKEYSecretKeyFromRequest GetKEY (rewriteRequestURL req target) engine key)
    with (checkAPIKEYSecretKeyFromRequest GetKEY req engine key).
  destruct (String.eqb securityType "jwt").
  - rewrite Hc. unfold update_proxy, add_log, add_metrics, set_heap.
    cbn [heap proxy mux log metrics]. now rewrite Hj, Hpj.
  - destruct (String.eqb securityType "apikey"); [|discriminate].
    injection Hc as ->.
    unfold update_proxy, add_log, add_metrics, set_heap.
    cbn [heap proxy mux log metrics]. now rewrite Hj, Hpj.
Qed.

(** A run of the director of a protected endpoint whose security type
    is neither [jwt] nor [apikey], and of an unprotected endpoint. *)
Lemma run_unchecked (target : URL) (securityType engine key : string) (now : Z)
    (req : Request) (st : State) :
  check_of securityType engine key now req = None ->
  String.eqb securityType "jwt" = false ->
  run_Director GetKEY jwt_Verify
    (director_protected (director_default (Some target)) (Some target)
       securityType engine key) now req st
  = Some (rewriteRequestURL req target, add_metrics (counted req target) st).
Proof.
  intros Hc Hjwt. cbn [run_Director]. rewrite metricRegister_counted.
  unfold check_of in Hc. rewrite Hjwt in *.
  destruct (String.eqb securityType "apikey"); [discriminate | reflexivity].
Qed.

Lemma run_plain (target : URL) (now : Z) (req : Request) (st : State) :
  run_Director GetKEY jwt_Verify
    (director_plain (director_default (Some target)) (Some target)) now req st
  = Some (rewriteRequestURL req target, add_metrics (counted req target) st).
Proof. cbn [run_Director]. now rewrite metricRegister_counted. Qed.

(** The directors [ProxyGateway] installs for a target that parsed. *)
Inductive built_for (target : URL) : Director -> Prop :=
  | built_plain :
      built_for target (director_plain (director_default (Some target)) (Some target))
  | built_protected (securityType engine key : string) :
      built_for target
        (director_protected (director_default (Some target)) (Some target)
           securityType engine key).

Lemma run_built_metrics (target : URL) (d : Director) (now : Z) (req outreq : Request)
    (st st1 : State) :
  built_for target d ->
  run_Director GetKEY jwt_Verify d now req st = Some (outreq, st1) ->
  outreq = rewriteRequestURL req target /\
  metrics st1 = metrics st ++ counted req target.
Proof.
  intros [|securityType engine key].
  - rewrite run_plain. intros [= <- <-]. auto.
  - cbn [run_Director]. rewrite metricRegister_counted.
    destruct (String.eqb securityType "jwt").
    + destruct (checkJWTSecretKeyFromRequest _ _ _ _) as [[lines err]|]; [|discriminate].
      unfold update_proxy. cbn [proxy heap add_log add_metrics].
      destruct (proxy st) as [j|]; [|discriminate].
      destruct (heap st !! j); [|discriminate].
      intros [= <- <-]. auto.
    + destruct (String.eqb securityType "apikey").
      * destruct (checkAPIKEYSecretKeyFromRequest _ _ _ _) as [lines err].
        unfold update_proxy. cbn [proxy heap add_log add_metrics].
        destruct (proxy st) as [j|]; [|discriminate].
        destruct (heap st !! j); [|discriminate].
        intros [= <- <-]. auto.
      * intros [= <- <-]. auto.
Qed.

(** X9: a completed [ProxyGateway] has added one handle per endpoint,
    in order and with no hook installed, has registered each endpoint's
    prefix for that endpoint's own handle, has left the handles that
    were there untouched, and leaves the package-level [proxy] at the
    handle of the last endpoint. *)
Theorem ProxyGateway_one_handle_per_endpoint (endpoints : ProxyEndpoint)
    (engine key securityType : string) (st st' : State) :
  ProxyGateway url_Parse NewSingleHostReverseProxy_nil_returns endpoints engine key
    securityType st = Some st' ->
  length (heap st') = (length (heap st) + length (Endpoints endpoints))%nat /\
  (forall (k : nat) (endpoint : Endpoint),
     Endpoints endpoints !! k = Some endpoint ->
     heap st' !! (length (heap st) + k)%nat
       = Some (handle_of (HostURI endpoints) engine key securityType endpoint) /\
     mux st' !! (length (mux st) + k)%nat
       = Some (PathToProxy endpoint, (length (heap st) + k)%nat)) /\
  (forall (i : nat) (p : ReverseProxy), heap st !! i = Some p -> heap st' !! i = Some p) /\
  (Endpoints endpoints <> [] -> proxy st' = Some (length (heap st') - 1)%nat).
Proof.
  unfold ProxyGateway. intros H.
  apply ProxyGateway_fold_built in H. destruct H as (Hh & Hp & Hm & _).
  split; [|split; [|split]].
  - now rewrite Hh, length_app, length_fmap.
  - intros k endpoint Hk. split.
    + rewrite Hh, lookup_app_r by lia.
      replace (length (heap st) + k - length (heap st))%nat with k by lia.
      now rewrite list_lookup_fmap, Hk.
    + rewrite Hm, lookup_app_r by lia.
      replace (length (mux st) + k - length (mux st))%nat with k by lia.
      apply lookup_zip_Some. split.
      * now rewrite list_lookup_fmap, Hk.
      * apply lookup_seq_lt. now apply lookup_lt_Some in Hk.
  - intros i p Hi. rewrite Hh. now apply lookup_app_l_Some.
  - intros Hne. rewrite Hp, Hh, length_app, length_fmap.
    destruct (Endpoints endpoints); [congruence|]. reflexivity.
Qed.

(** What [lines] and [err] are for a director with the given security
    type that has run its check on [outreq]: the log lines and the
    error of [checkJWTSecretKeyFromRequest], respectively of
    [checkAPIKEYSecretKeyFromRequest]. *)
Definition checked (securityType engine key : string) (now : Z) (outreq : Request)
    (lines : list Entry) (err : option error) : Prop :=
  (securityType = "jwt" ->
   checkJWTSecretKeyFromRequest jwt_Verify now outreq key = Some (lines, err)) /\
  (securityType = "apikey" ->
   checkAPIKEYSecretKeyFromRequest GetKEY outreq engine key = (lines, err)).

Lemma check_of_checked (target : URL) (securityType engine key : string) (now : Z)
    (req : Request) (lines : list Entry) (err : option error) :
  check_of securityType engine key now req = Some (lines, err) ->
  checked securityType engine key now (rewriteRequestURL req target) lines err.
Proof.
  unfold check_of, checked. intros Hc. split; intros ->.
  - exact Hc.
  - cbn in Hc. now injection Hc.
Qed.


(** X11: a request served by a handle that [ProxyGateway] built for a
    parsed target is counted exactly once in each of the two counters,
    under the address [extractIpAddr] gives, whatever the check and the
    upstream answer. *)
Theorem request_counted_once (i : nat) (now : Z) (req : Request) (st st' : State)
    (p : ReverseProxy) (target : URL) (w : Written) :
  heap st !! i = Some p ->
  built_for target (Director_ p) ->
  ReverseProxy_ServeHTTP GetKEY jwt_Verify RoundTrip i now req st = Some (w, st') ->
  exists ip,
    extractIpAddr req = Some ip /\
    metrics st' = metrics st ++
      [CountersByEndpoint_Inc (RequestURI req) target ip (Method req);
       TotalRequests_Inc (RequestURI req) "proxy"].
Proof.
  intros Hp Hb. unfold ReverseProxy_ServeHTTP. rewrite Hp.
  destruct (run_Director _ _ _ now req st) as [[outreq st1]|] eqn:E; [|discriminate].
  destruct (run_built_metrics _ _ _ _ _ _ _ Hb E) as [_ Hm].
  assert (Hst : st' = st1 -> exists ip,
    extractIpAddr req = Some ip /\
    metrics st' = metrics st ++
      [CountersByEndpoint_Inc (RequestURI req) target ip (Method req);
       TotalRequests_Inc (RequestURI req) "proxy"]).
  { intros ->. rewrite Hm. unfold counted. rewrite extractIpAddr_picked. eauto. }
  destruct (heap st1 !! i) as [p1|]; [|discriminate].
  destruct (RoundTrip outreq) as [res|e]; [|intros [= _ <-]; auto].
  destruct (ModifyResponse p1) as [hook|]; [|intros [= _ <-]; auto].
  destruct (hook res) as [res' [e|]]; intros [= _ <-]; auto.
Qed.

Lemma built_handle (endpoints : ProxyEndpoint) (engine key securityType : string)
    (st st1 : State) (front back : list Endpoint) (endpoint : Endpoint) :
  ProxyGateway url_Parse NewSingleHostReverseProxy_nil_returns endpoints engine key
    securityType st = Some st1 ->
  Endpoints endpoints = front ++ endpoint :: back ->
  heap st1 !! (length (heap st) + length front)%nat
    = Some (handle_of (HostURI endpoints) engine key securityType endpoint) /\
  proxy st1 = Some (length (heap st) + length front + length back)%nat /\
  (length (heap st) + length front + length back < length (heap st1))%nat.
Proof.
  unfold ProxyGateway. intros H Heps.
  apply ProxyGateway_fold_built in H. destruct H as (Hh & Hp & _ & _).
  rewrite Heps in *. split; [|split].
  - rewrite Hh, lookup_app_r by lia.
    replace (length (heap st) + length front - length (heap st))%nat
      with (length front) by lia.
    rewrite fmap_app, fmap_cons.
    now apply list_lookup_middle; rewrite length_fmap.
  - rewrite Hp. destruct front; cbn [app length]; f_equal;
      rewrite ?length_app; cbn [length]; lia.
  - rewrite Hh, length_app, length_fmap, length_app. cbn [length]. lia.
Qed.

(** What serving a request keeps of the state: [proxy], and for every
    handle its director and its error handler. *)
Definition same_wiring (st st' : State) : Prop :=
  proxy st' = proxy st /\
  forall (i : nat) (p : ReverseProxy),
    heap st !! i = Some p ->
    exists p', heap st' !! i = Some p' /\
               Director_ p' = Director_ p /\ ErrorHandler p' = ErrorHandler p.

Lemma same_wiring_refl (st : State) : same_wiring st st.
Proof. split; [reflexivity|]. eauto. Qed.

Lemma same_wiring_trans (st1 st2 st3 : State) :
  same_wiring st1 st2 -> same_wiring st2 st3 -> same_wiring st1 st3.
Proof.
  intros [Hp1 Hh1] [Hp2 Hh2]. split; [congruence|].
  intros i p Hi. destruct (Hh1 _ _ Hi) as (p' & Hi' & Hd & He).
  destruct (Hh2 _ _ Hi') as (p'' & Hi'' & Hd' & He').
  exists p''. split; [exact Hi''|]. split; congruence.
Qed.

Lemma metricRegister_wiring (req : Request) (target : option URL) (st st' : State) :
  metricRegister req target st = Some st' -> same_wiring st st'.
Proof.
  intros H. apply metricRegister_heap in H. destruct H as [Hh Hp].
  split; [exact Hp|]. intros i p Hi. rewrite Hh. eauto.
Qed.

Lemma update_hook_wiring (h : option (Response -> Response * option error))
    (lines : list Entry) (st st' : State) :
  update_proxy (set_ModifyResponse h) (add_log lines st) = Some st' ->
  same_wiring st st'.
Proof.
  unfold update_proxy, add_log, set_heap. cbn [proxy heap mux log metrics].
  destruct (proxy st) as [j|] eqn:Hj; [|discriminate].
  destruct (heap st !! j) as [pj|] eqn:Hpj; [|discriminate].
  intros [= <-]. split; [now cbn|]. cbn [heap]. intros i p Hi.
  destruct (decide (i = j)) as [->|Hne].
  - rewrite list_lookup_insert_eq by (now apply lookup_lt_Some in Hpj).
    rewrite Hpj in Hi. injection Hi as <-. eauto.
  - rewrite list_lookup_insert_ne by congruence. eauto.
Qed.

Lemma run_Director_wiring (d : Director) (now : Z) (req outreq : Request)
    (st st' : State) :
  run_Director GetKEY jwt_Verify d now req st = Some (outreq, st') ->
  same_wiring st st'.
Proof.
  revert req outreq st st'.
  induction d as [target | d IH target securityType engine key | d IH target];
    intros req outreq st st'; cbn [run_Director].
  - destruct target; [|discriminate]. intros [= _ <-]. apply same_wiring_refl.
  - destruct (run_Director _ _ d now req st) as [[req1 st1]|] eqn:E1; [|discriminate].
    apply IH in E1.
    destruct (metricRegister req1 target st1) as [st2|] eqn:E2; [|discriminate].
    apply metricRegister_wiring in E2.
    pose proof (same_wiring_trans _ _ _ E1 E2) as H12.
    destruct (String.eqb securityType "jwt").
    + destruct (checkJWTSecretKeyFromRequest _ _ _ _) as [[lines err]|]; [|discriminate].
      destruct (update_proxy _ _) as [st3|] eqn:E3; [|discriminate].
      apply update_hook_wiring in E3. intros [= _ <-].
      eapply same_wiring_trans; eassumption.
    + destruct (String.eqb securityType "apikey").
      * destruct (checkAPIKEYSecretKeyFromRequest _ _ _ _) as [lines err].
        destruct (update_proxy _ _) as [st3|] eqn:E3; [|discriminate].
        apply update_hook_wiring in E3. intros [= _ <-].
        eapply same_wiring_trans; eassumption.
      * intros [= _ <-]. exact H12.
  - destruct (run_Director _ _ d now req st) as [[req1 st1]|] eqn:E1; [|discriminate].
    apply IH in E1.
    destruct (metricRegister req1 target st1) as [st2|] eqn:E2; [|discriminate].
    apply metricRegister_wiring in E2. intros [= _ <-].
    eapply same_wiring_trans; eassumption.
Qed.

Lemma ServeHTTP_wiring (j : nat) (now : Z) (req : Request) (st st' : State)
    (w : Written) :
  ReverseProxy_ServeHTTP GetKEY jwt_Verify RoundTrip j now req st = Some (w, st') ->
  same_wiring st st'.
Proof.
  unfold ReverseProxy_ServeHTTP.
  destruct (heap st !! j) as [p|]; [|discriminate].
  destruct (run_Director _ _ _ now req st) as [[outreq st1]|] eqn:E; [|discriminate].
  apply run_Director_wiring in E.
  destruct (heap st1 !! j) as [p1|]; [|discriminate].
  destruct (RoundTrip outreq) as [res|e]; [|intros [= _ <-]; exact E].
  destruct (ModifyResponse p1) as [hook|]; [|intros [= _ <-]; exact E].
  destruct (hook res) as [res' [e|]]; intros [= _ <-]; exact E.
Qed.

(** The package-level [proxy] points to handle [i], and handle [i] has
    the director and the error handler [ProxyGateway] gives a protected
    endpoint with target [target]. *)
Definition enforcing (i : nat) (target : URL) (securityType engine key : string)
    (st : State) : Prop :=
  proxy st = Some i /\
  exists p, heap st !! i = Some p /\
            Director_ p = director_protected (director_default (Some target))
                            (Some target) securityType engine key /\
            ErrorHandler p = ErrorHandler_gateway.

(** X12: for the endpoint a [ProxyGateway] call configures last, when
    it is protected with security type [jwt] or [apikey] and its target
    URL parsed: in the state the call returns the package-level [proxy]
    points to the endpoint's handle; serving a request, through any
    handle, keeps it there; and as long as it is there, whenever the
    upstream answers, the check of the request decides what the
    endpoint's handle sends: the upstream's response, stamped, when the
    check returns nil, and status 500 with the check's error
    otherwise. *)
Theorem last_endpoint_enforced (endpoints : ProxyEndpoint)
    (engine key securityType : string) (st st1 : State)
    (front : list Endpoint) (endpoint : Endpoint) (target : URL) :
  ProxyGateway url_Parse NewSingleHostReverseProxy_nil_returns endpoints engine key
    securityType st = Some st1 ->
  Endpoints endpoints = front ++ [endpoint] ->
  PathProtected endpoint = true ->
  securityType = "jwt" \/ securityType = "apikey" ->
  url_Parse (HostURI endpoints +:+ PathEndpoint endpoint) = inl target ->
  let i := (length (heap st) + length front)%nat in
  enforcing i target securityType engine key st1 /\
  (forall (j : nat) (now : Z) (req : Request) (st2 st3 : State) (w : Written),
     enforcing i target securityType engine key st2 ->
     ReverseProxy_ServeHTTP GetKEY jwt_Verify RoundTrip j now req st2 = Some (w, st3) ->
     enforcing i target securityType engine key st3) /\
  (forall (now : Z) (req : Request) (st2 : State) (res : Response),
     enforcing i target securityType engine key st2 ->
     RoundTrip (rewriteRequestURL req target) = inl res ->
     exists lines err st3,
       checked securityType engine key now (rewriteRequestURL req target) lines err /\
       ReverseProxy_ServeHTTP GetKEY jwt_Verify RoundTrip i now req st2
       = Some (match err with
               | None => Forwarded (modifyResponse None res).1
               | Some e => Failed StatusInternalServerError (Some e)
               end, st3)).
Proof.
  intros Hgw Heps Hprot Hsec Hparse i. split; [|split].
  - destruct (built_handle _ _ _ _ _ _ _ _ _ Hgw Heps) as (Hi & Hj & _).
    cbn [length] in Hj. rewrite Nat.add_0_r in Hj.
    unfold handle_of, target_of in Hi. rewrite Hparse, Hprot in Hi.
    split; [exact Hj|]. eexists. split; [exact Hi|]. split; reflexivity.
  - intros j now req st2 st3 w (Hp & p & Hi & Hd & He) Hs.
    apply ServeHTTP_wiring in Hs. destruct Hs as [Hp' Hh'].
    destruct (Hh' _ _ Hi) as (p' & Hi' & Hd' & He').
    split; [congruence|]. exists p'. split; [exact Hi'|]. split; congruence.
  - intros now req st2 res (Hp & p & Hi & Hd & He) Hrt.
    destruct (check_of_defined securityType engine key now req Hsec)
      as (lines & err & Hc).
    exists lines, err. eexists. split; [now apply check_of_checked|].
    unfold ReverseProxy_ServeHTTP. rewrite Hi, Hd.
    rewrite (run_protected _ _ _ _ _ _ _ _ _ _ _ Hc Hp Hi). cbn [heap].
    rewrite list_lookup_insert_eq by (now apply lookup_lt_Some in Hi).
    rewrite Hrt. cbn [ModifyResponse set_ModifyResponse ErrorHandler]. rewrite He.
    destruct err; reflexivity.
Qed.

(** X13: on the handle of a protected endpoint after which another
    endpoint was configured, the check decides nothing: the upstream's
    response is forwarded as it is, whatever the request carries and
    whatever the security type. *)
Theorem earlier_endpoint_unchecked (endpoints : ProxyEndpoint)
    (engine key securityType : string) (now : Z) (req : Request) (st st1 : State)
    (front back : list Endpoint) (endpoint later : Endpoint) (target : URL)
    (res : Response) :
  ProxyGateway url_Parse NewSingleHostReverseProxy_nil_returns endpoints engine key
    securityType st = Some st1 ->
  Endpoints endpoints = front ++ endpoint :: later :: back ->
  PathProtected endpoint = true ->
  url_Parse (HostURI endpoints +:+ PathEndpoint endpoint) = inl target ->
  RoundTrip (rewriteRequestURL req target) = inl res ->
  exists st2,
    ReverseProxy_ServeHTTP GetKEY jwt_Verify RoundTrip
      (length (heap st) + length front) now req st1
    = Some (Forwarded res, st2).
Proof.
  intros Hgw Heps Hprot Hparse Hrt.
  destruct (built_handle _ _ _ _ _ _ _ _ _ Hgw Heps) as (Hi & Hj & Hlt).
  cbn [length] in Hj, Hlt.
  unfold handle_of, target_of in Hi. rewrite Hparse, Hprot in Hi.
  destruct (lookup_lt_is_Some_2 _ _ Hlt) as [pj Hpj].
  unfold ReverseProxy_ServeHTTP. rewrite Hi. cbn [Director_].
  destruct (check_of securityType engine key now req) as [[lines err]|] eqn:Hc.
  - rewrite (run_protected _ _ _ _ _ _ _ _ _ _ _ Hc Hj Hpj). cbn [heap].
    rewrite list_lookup_insert_ne by lia. rewrite Hi, Hrt.
    cbn [ModifyResponse]. eauto.
  - assert (Hjwt : String.eqb securityType "jwt" = false).
    { unfold check_of in Hc. destruct (String.eqb securityType "jwt"); [|reflexivity].
      destruct (checkJWT_defined now req key) as (l & e & Hd). congruence. }
    rewrite (run_unchecked _ _ _ _ _ _ _ Hc Hjwt).
    cbn [add_metrics heap]. rewrite Hi, Hrt. cbn [ModifyResponse]. eauto.
Qed.

End Configuration.




(** The gateway of [example_mixed] as [ProxyGateway] builds it. *)
Definition example_mixed_state : State :=
  {| heap := [ {| Director_ :=
                    director_protected (director_default (Some (example_target "/a")))
                      (Some (example_target "/a")) "apikey" "engine" "key";
                  ModifyResponse := None;
                  ErrorHandler := ErrorHandler_gateway |};
               {| Director_ :=
                    director_plain (director_default (Some (example_target "/b")))
                      (Some (example_target "/b"));
                  ModifyResponse := None;
                  ErrorHandler := ErrorHandler_nil |} ];
     proxy := Some 1%nat;
     mux := [("/svc-a/"%string, 0%nat); ("/svc-b/"%string, 1%nat)];
     log := []; metrics := [] |}.

Lemma example_mixed_built : example_gateway example_mixed = Some example_mixed_state.
Proof. reflexivity. Qed.

Definition example_wrong_key : Request :=
  example_request "/x" [("X-Api-Key", ["wrong"])].

Lemma ProxyGateway_one_handle_per_endpoint_witness :
  length (heap example_mixed_state) = 2%nat /\
  mux example_mixed_state !! 1%nat = Some ("/svc-b/"%string, 1%nat) /\
  proxy example_mixed_state = Some 1%nat.
Proof.
  destruct (ProxyGateway_one_handle_per_endpoint example_Parse true example_mixed
              "engine" "key" "apikey" init example_mixed_state eq_refl)
    as (Hlen & Hat & _ & Hlast).
  split; [exact Hlen|]. split.
  - exact (proj2 (Hat 1%nat (mkEndpoint "/b" "/svc-b/" false) eq_refl)).
  - apply Hlast. discriminate.
Defined.


Lemma request_counted_once_witness :
  exists w st',
    ReverseProxy_ServeHTTP example_GetKEY example_Verify example_RoundTrip 0 0
      example_wrong_key example_protected_state = Some (w, st') /\
    metrics st' =
      [CountersByEndpoint_Inc "/x" (example_target "/a") "192.0.2.7" "GET";
       TotalRequests_Inc "/x" "proxy"].
Proof.
  do 2 eexists. split; [reflexivity|].
  destruct (request_counted_once example_GetKEY example_Verify example_RoundTrip
              0%nat 0 example_wrong_key example_protected_state _ _
              (example_target "/a") _ eq_refl (built_protected _ _ _ _) eq_refl)
    as (ip & Hip & Hm).
  vm_compute in Hip. injection Hip as <-. exact Hm.
Defined.

Definition example_right_key : Request :=
  example_request "/x" [("X-Api-Key", ["s3cret"])].

Lemma last_endpoint_enforced_witness :
  exists st2 st3,
    ReverseProxy_ServeHTTP example_GetKEY example_Verify example_RoundTrip 0 0
      example_wrong_key example_protected_state
    = Some (Failed StatusInternalServerError (Some (NewError "Invalid API KEY")), st2) /\
    ReverseProxy_ServeHTTP example_GetKEY example_Verify example_RoundTrip 0 0
      example_right_key st2
    = Some (Forwarded
              {| StatusCode := 200;
                 RespHeader := {["Content-Type" := ["text/plain"]; "X-Proxy" := ["Ngonx"]]};
                 Body := "/a/x" |}, st3).
Proof.
  destruct (last_endpoint_enforced example_GetKEY example_Verify example_Parse true
              example_RoundTrip example_protected "engine" "key" "apikey"
              init example_protected_state []
              (mkEndpoint "/a" "/svc-a/" true) (example_target "/a")
              eq_refl eq_refl eq_refl (or_intror eq_refl) eq_refl)
    as (Hstart & Hkeeps & Hdecides).
  destruct (Hdecides 0 example_wrong_key example_protected_state
              (example_response "/a/x") Hstart eq_refl)
    as (lines & err & st2 & [_ Hkey] & Hs).
  specialize (Hkey eq_refl). vm_compute in Hkey. injection Hkey as <- <-.
  destruct (Hdecides 0 example_right_key st2 (example_response "/a/x")
              (Hkeeps _ _ _ _ _ _ Hstart Hs) eq_refl)
    as (lines' & err' & st3 & [_ Hkey'] & Hs').
  specialize (Hkey' eq_refl). vm_compute in Hkey'. injection Hkey' as <- <-.
  exists st2, st3. split; [exact Hs | exact Hs'].
Defined.

Lemma earlier_endpoint_unchecked_witness :
  exists st2,
    ReverseProxy_ServeHTTP example_GetKEY example_Verify example_RoundTrip 0 0
      example_wrong_key example_mixed_state
    = Some (Forwarded (example_response "/a/x"), st2).
Proof.
  exact (earlier_endpoint_unchecked example_GetKEY example_Verify example_Parse true
           example_RoundTrip example_mixed "engine" "key" "apikey" 0
           example_wrong_key init example_mixed_state [] []
           (mkEndpoint "/a" "/svc-a/" true) (mkEndpoint "/b" "/svc-b/" false)
           (example_target "/a") (example_response "/a/x")
           eq_refl eq_refl eq_refl eq_refl eq_refl).
Defined.

Section Unparsable.

Variable GetKEY : string -> string -> string * option error.
Variable jwt_Verify : forall (token key : string) (now : Z), option error.
Variable url_Parse : string -> URL + error.
Variable NewSingleHostReverseProxy_nil_returns : bool.
Variable RoundTrip : Request -> Response + error.

Lemma ProxyGateway_endpoint_accepts (HostURI_ engine key securityType : string)
    (endpoint : Endpoint) (st st' : State) :
  ProxyGateway_endpoint url_Parse NewSingleHostReverseProxy_nil_returns
    HostURI_ engine key securityType endpoint st = Some st' ->
  NewSingleHostReverseProxy_nil_returns = true \/
  target_of url_Parse HostURI_ endpoint <> None.
Proof.
  unfold ProxyGateway_endpoint, target_of, NewSingleHostReverseProxy.
  destruct (url_Parse (HostURI_ +:+ PathEndpoint endpoint)) as [u|err];
    [right; discriminate|].
  destruct NewSingleHostReverseProxy_nil_returns; [auto|].
  destruct (PathProtected endpoint); discriminate.
Qed.

Lemma ProxyGateway_fold_accepts (HostURI_ engine key securityType : string)
    (eps : list Endpoint) (st st' : State) :
  foldl (fun st endpoint =>
           st ≫= ProxyGateway_endpoint url_Parse NewSingleHostReverseProxy_nil_returns
                   HostURI_ engine key securityType endpoint)
        (Some st) eps = Some st' ->
  forall endpoint : Endpoint, endpoint ∈ eps ->
    NewSingleHostReverseProxy_nil_returns = true \/
    target_of url_Parse HostURI_ endpoint <> None.
Proof.
  revert st. induction eps as [|ep eps IH]; intros st H endpoint Hin.
  - now apply elem_of_nil in Hin.
  - cbn [foldl mbind option_bind] in H.
    destruct (ProxyGateway_endpoint _ _ _ _ _ _ ep st) as [st1|] eqn:E;
      [|rewrite ProxyGateway_fold_None in H; discriminate].
    apply elem_of_cons in Hin. destruct Hin as [-> | Hin].
    + eapply ProxyGateway_endpoint_accepts, E.
    + eapply IH; eassumption.
Qed.

(** The line [ProxyGateway] logs for an endpoint: none when its target
    URL parses, the parse error otherwise. *)
Definition parse_error_line (HostURI_ : string) (endpoint : Endpoint) : option Entry :=
  match url_Parse (HostURI_ +:+ PathEndpoint endpoint) with
  | inl _ => None
  | inr err => Some (LogError "proxy: %v" [AErr err])
  end.

Lemma ProxyGateway_endpoint_log (HostURI_ engine key securityType : string)
    (endpoint : Endpoint) (st st' : State) :
  ProxyGateway_endpoint url_Parse NewSingleHostReverseProxy_nil_returns
    HostURI_ engine key securityType endpoint st = Some st' ->
  log st' = log st ++ omap (parse_error_line HostURI_) [endpoint].
Proof.
  unfold ProxyGateway_endpoint, parse_error_line, NewSingleHostReverseProxy.
  destruct st as [h pr m l ms]. cbn [omap list_omap].
  destruct (url_Parse (HostURI_ +:+ PathEndpoint endpoint)) as [u|err];
    destruct (PathProtected endpoint);
    try destruct NewSingleHostReverseProxy_nil_returns; try discriminate;
    unfold assign_new, add_log; cbn [heap proxy mux log metrics mbind option_bind];
    rewrite (list_lookup_middle h [] _ (length h) eq_refl);
    rewrite !update_proxy_last; cbn [proxy];
    unfold Handle; cbn [heap proxy mux log metrics];
    (destruct (_ || _); [discriminate|]);
    intros [= <-]; cbn [heap proxy mux log metrics];
    rewrite ?app_nil_r; reflexivity.
Qed.

Lemma ProxyGateway_fold_log (HostURI_ engine key securityType : string)
    (eps : list Endpoint) (st st' : State) :
  foldl (fun st endpoint =>
           st ≫= ProxyGateway_endpoint url_Parse NewSingleHostReverseProxy_nil_returns
                   HostURI_ engine key securityType endpoint)
        (Some st) eps = Some st' ->
  log st' = log st ++ omap (parse_error_line HostURI_) eps.
Proof.
  revert st. induction eps as [|ep eps IH]; intros st H.
  - cbn in H. injection H as <-. cbn. now rewrite app_nil_r.
  - cbn [foldl mbind option_bind] in H.
    destruct (ProxyGateway_endpoint _ _ _ _ _ _ ep st) as [st1|] eqn:E;
      [|rewrite ProxyGateway_fold_None in H; discriminate].
    apply ProxyGateway_endpoint_log in E. rewrite (IH _ H), E, <- app_assoc.
    f_equal. symmetry. apply (omap_app _ [ep] eps).
Qed.

(** X17: [ProxyGateway] logs the parse error of an endpoint whose
    target URL fails to parse and does not skip the endpoint.  The
    lines the call adds to the log are the parse errors of its
    endpoints, in order, this endpoint's among them.  When the call
    completes all the same (the library's constructor then accepts a
    nil target), the endpoint has its handle with a nil target, and
    serving a request through that handle panics in the director. *)
Theorem unparsable_endpoint_handle (endpoints : ProxyEndpoint)
    (engine key securityType : string) (now : Z) (req : Request) (st st1 : State)
    (k : nat) (endpoint : Endpoint) (err : error) :
  ProxyGateway url_Parse NewSingleHostReverseProxy_nil_returns endpoints engine key
    securityType st = Some st1 ->
  Endpoints endpoints !! k = Some endpoint ->
  url_Parse (HostURI endpoints +:+ PathEndpoint endpoint) = inr err ->
  NewSingleHostReverseProxy_nil_returns = true /\
  log st1 = log st ++ omap (parse_error_line (HostURI endpoints)) (Endpoints endpoints) /\
  LogError "proxy: %v" [AErr err]
    ∈ omap (parse_error_line (HostURI endpoints)) (Endpoints endpoints) /\
  (exists p, heap st1 !! (length (heap st) + k)%nat = Some p /\
             (Director_ p = director_plain (director_default None) None \/
              Director_ p = director_protected (director_default None) None
                              securityType engine key)) /\
  ReverseProxy_ServeHTTP GetKEY jwt_Verify RoundTrip (length (heap st) + k) now req st1
    = None.
Proof.
  intros Hgw Hk Hparse.
  assert (Hnil : NewSingleHostReverseProxy_nil_returns = true).
  { unfold ProxyGateway in Hgw.
    destruct (ProxyGateway_fold_accepts _ _ _ _ _ _ _ Hgw endpoint
                (list_elem_of_lookup_2 _ _ _ Hk)) as [H | H]; [exact H|].
    unfold target_of in H. now rewrite Hparse in H. }
  unfold ProxyGateway in Hgw.
  pose proof (ProxyGateway_fold_log _ _ _ _ _ _ _ Hgw) as Hlog.
  apply ProxyGateway_fold_built in Hgw.
  destruct Hgw as (Hh & _).
  assert (Hi : heap st1 !! (length (heap st) + k)%nat
               = Some (handle_of url_Parse (HostURI endpoints) engine key securityType
                         endpoint)).
  { rewrite Hh, lookup_app_r by lia.
    replace (length (heap st) + k - length (heap st))%nat with k by lia.
    now rewrite list_lookup_fmap, Hk. }
  unfold handle_of, target_of in Hi. rewrite Hparse in Hi.
  split; [exact Hnil|]. split; [exact Hlog|]. split; [|split].
  - apply list_elem_of_omap. exists endpoint.
    split; [exact (list_elem_of_lookup_2 _ _ _ Hk)|].
    unfold parse_error_line. now rewrite Hparse.
  - eexists. split; [exact Hi|]. destruct (PathProtected endpoint); cbn; auto.
  - unfold ReverseProxy_ServeHTTP. rewrite Hi.
    destruct (PathProtected endpoint); reflexivity.
Qed.

End Unparsable.

(** An endpoint whose target, [:8080/a], has no scheme: [url.Parse]
    answers [missing protocol scheme]. *)
Definition example_unparsable : ProxyEndpoint :=
  mkProxyEndpoint ":8080" [mkEndpoint "/a" "/svc-a/" false].

Lemma unparsable_endpoint_handle_witness :
  exists st1,
    ProxyGateway example_Parse true example_unparsable "engine" "key" "apikey" init
      = Some st1 /\
    log st1 = [LogError "proxy: %v" [AErr (Other "missing protocol scheme")]] /\
    ReverseProxy_ServeHTTP example_GetKEY example_Verify example_RoundTrip 0 0
      (example_request "/x" []) st1 = None.
Proof.
  eexists. split; [reflexivity|].
  destruct (unparsable_endpoint_handle example_GetKEY example_Verify
              example_Parse true example_RoundTrip example_unparsable "engine" "key"
              "apikey" 0 (example_request "/x" []) init _ 0%nat
              (mkEndpoint "/a" "/svc-a/" false) (Other "missing protocol scheme")
              eq_refl eq_refl eq_refl) as (_ & Hlog & _ & _ & Hpanic).
  split; [exact Hlog | exact Hpanic].
Defined.

End GatewayFacts.

(** ** Further facts about the load balancer *)

Module LBFacts.
Import strings http context LB.

(** *** Startup *)

Lemma Split_not_nil (s sep : string) : sep <> EmptyString -> Split s sep <> [].
Proof.
  intros Hsep. unfold Split. destruct sep; [congruence|].
  destruct (Split_from _ _ _). discriminate.
Qed.

Section StartOutcome.

Variable url_Parse : string -> http.URL + error.
Variable NewSingleHostReverseProxy_nil_returns : bool.

(** The URL [StartLB] goes on with for a token; nil when the token
    does not parse. *)
Definition serverUrl_of (tok : string) : option http.URL :=
  match url_Parse tok with
  | inl u => Some u
  | inr _ => None
  end.

(** The backend [StartLB] adds for a token. *)
Definition backend_of (tok : string) : Backend :=
  {| URL := serverUrl_of tok; Alive := true; ReverseProxy := serverUrl_of tok |}.

Definition parses (tok : string) : Prop := exists u, url_Parse tok = inl u.

Abbreviation loop := (foldl (fun acc tok =>
  StartLB_token url_Parse NewSingleHostReverseProxy_nil_returns tok acc)).

Lemma loop_Fatal (tokens : list string) (msg : string) :
  loop (Fatal msg) tokens = Fatal msg.
Proof. induction tokens as [|tok tokens IH]; [reflexivity | exact IH]. Qed.

Lemma loop_StartupPanic (tokens : list string) (logged : list Entry) :
  loop (StartupPanic logged) tokens = StartupPanic logged.
Proof. induction tokens as [|tok tokens IH]; [reflexivity | exact IH]. Qed.


Lemma StartLB_token_inv (tok : string) (s s' : ServerPool) (logged logged' : list Entry) :
  StartLB_token url_Parse NewSingleHostReverseProxy_nil_returns tok (Configured s logged)
    = Configured s' logged' ->
  s' = AddBackend (backend_of tok) s /\
  (NewSingleHostReverseProxy_nil_returns = true \/ parses tok).
Proof.
  unfold StartLB_token, backend_of, serverUrl_of, parses.
  destruct (url_Parse tok) as [u|err].
  - intros [= <- _]. eauto.
  - destruct NewSingleHostReverseProxy_nil_returns; [|discriminate].
    intros [= <- _]. auto.
Qed.

Lemma loop_Configured_inv (tokens : list string) (s s' : ServerPool)
    (logged logged' : list Entry) :
  loop (Configured s logged) tokens = Configured s' logged' ->
  backends s' = backends s ++ (backend_of <$> tokens) /\
  cursor s' = cursor s /\
  (NewSingleHostReverseProxy_nil_returns = true \/ Forall parses tokens).
Proof.
  revert s logged. induction tokens as [|tok tokens IH]; intros s logged H.
  - cbn in H. injection H as <- _. cbn. rewrite app_nil_r. auto.
  - cbn [foldl] in H.
    destruct (StartLB_token _ _ tok (Configured s logged)) as [msg|l1|s1 l1] eqn:E.
    + rewrite loop_Fatal in H. discriminate.
    + rewrite loop_StartupPanic in H. discriminate.
    + apply StartLB_token_inv in E. destruct E as [-> Hok].
      destruct (IH _ _ H) as (Hb & Hc & Hall).
      rewrite Hb, Hc. cbn [AddBackend backends cursor]. rewrite <- app_assoc.
      split; [reflexivity|]. split; [reflexivity|].
      destruct Hok as [Hnil | Hp]; [auto|].
      destruct Hall as [Hnil | Hall]; [auto|]. right. now constructor.
Qed.


(** X14: when the loop of [StartLB] completes, the pool holds, after
    the backends it held before, one backend per token of the list in
    the order of the list, each alive and with the proxy built for its
    own URL; the pool is not empty and the cursor is as it was. *)
Theorem StartLB_pool (serverList : string) (s s' : ServerPool) (logged : list Entry) :
  StartLB url_Parse NewSingleHostReverseProxy_nil_returns serverList s
    = Configured s' logged ->
  backends s' = backends s ++ (backend_of <$> Split serverList ",") /\
  cursor s' = cursor s /\
  backends s' <> [].
Proof.
  unfold StartLB. destruct (String.length serverList =? 0)%nat; [discriminate|].
  intros H. apply loop_Configured_inv in H. destruct H as (Hb & Hc & _).
  split; [exact Hb|]. split; [exact Hc|].
  rewrite Hb. intros Hnil. apply app_eq_nil in Hnil. destruct Hnil as [_ Hnil].
  apply fmap_nil_inv in Hnil. now apply Split_not_nil in Hnil.
Qed.


End StartOutcome.

Definition example_empty_pool : ServerPool := {| backends := []; cursor := 0 |}.

Lemma StartLB_pool_witness :
  backends
    {| backends := [example_backend example_A;
                    {| URL := None; Alive := true; ReverseProxy := None |}];
       cursor := 0 |}
  = [backend_of Gateway.example_Parse "http://a:8081";
     backend_of Gateway.example_Parse ":8082"].
Proof.
  exact (proj1 (StartLB_pool Gateway.example_Parse true "http://a:8081,:8082"
                  example_empty_pool _ _ eq_refl)).
Defined.


(** *** The retry budget *)



Section RetryBudget.

Variable Duration : Z -> Z.
Variable RoundTrip : forall (n : nat) (target : http.URL) (outreq : Request), Response + error.

(** [S n] forwards of [request] to [A] in a row, each but the last
    followed by a retry: the outbound request of the last forward.  A
    retry sends the outbound request of the forward before it through
    the director again, under the context with the next [RETRY]. *)
Fixpoint last_outbound (A : http.URL) (n : nat) (request : Request) : Request :=
  let outreq := rewriteRequestURL request A in
  match n with
  | O => outreq
  | S n => last_outbound A n (retried (int.add (GetRetryFromContext request) 1) outreq)
  end.






Lemma GetAttemptsFromContext_last_outbound (A : http.URL) (n : nat) (request : Request) :
  GetAttemptsFromContext (last_outbound A n request) = GetAttemptsFromContext request.
Proof.
  revert request. induction n as [|n IH]; intros request; [reflexivity|].
  cbn [last_outbound]. rewrite IH. now rewrite GetAttemptsFromContext_retried.
Qed.




End RetryBudget.



End LBFacts.
